(** * metaclean: scanning and stripping image metadata

    A shallow embedding of [metaclean.py] and the properties of its
    metadata policy, its atomic writer and its batch driver.

    The program is a thin layer over Pillow, [pathlib], [tempfile] and the
    operating system.  Everything the program itself computes is embedded as
    executable definitions that follow the source function by function.
    What the libraries compute is either embedded from their documented
    behaviour (paths, string methods) or taken as a parameter (the tag
    registry, the pixel transposition, the outcome of each system call).

    The state that is threaded through the program holds the files, the
    lines printed on the console, and a trace of the calls made to the file
    system and to the two workers.  The trace is instrumentation: the
    program never reads it.  An exception stands for an instance of
    [Exception]; the interruption by SIGINT, which leaves through
    [sys.exit(130)], is not part of the model. *)

From Stdlib Require Import ZArith Ascii.
From stdpp Require Import base option list strings gmap fin_maps pretty.

Local Open Scope Z_scope.

(** ** Python strings

    A [string] stands for a Python [str] whose code points are below 256. *)

Module PyStr.

(** Truthiness of a [str]: the empty string is false. *)
Definition truthy (s : string) : bool :=
  match s with
  | EmptyString => false
  | String _ _ => true
  end.

(** [str.isspace] on one code point (Latin-1 range). *)
Definition is_space (c : ascii) : bool :=
  let n := nat_of_ascii c in
  ((9 <=? n)%nat && (n <=? 13)%nat) || ((28 <=? n)%nat && (n <=? 32)%nat)
  || (n =? 133)%nat || (n =? 160)%nat.

Definition lower_char (c : ascii) : ascii :=
  let n := nat_of_ascii c in
  if ((65 <=? n)%nat && (n <=? 90)%nat) then ascii_of_nat (n + 32) else c.

Definition upper_char (c : ascii) : ascii :=
  let n := nat_of_ascii c in
  if ((97 <=? n)%nat && (n <=? 122)%nat) then ascii_of_nat (n - 32) else c.

Fixpoint map (f : ascii → ascii) (s : string) : string :=
  match s with
  | EmptyString => EmptyString
  | String c s' => String (f c) (map f s')
  end.

(** [str.lower] and [str.upper], on the ASCII letters. *)
Definition lower : string → string := map lower_char.
Definition upper : string → string := map upper_char.

Fixpoint lstrip (s : string) : string :=
  match s with
  | EmptyString => EmptyString
  | String c s' => if is_space c then lstrip s' else s
  end.

(** [rstrip] keeps a character when it is not a space or when something
    is kept after it. *)
Fixpoint rstrip (s : string) : string :=
  match s with
  | EmptyString => EmptyString
  | String c s' =>
      match rstrip s' with
      | EmptyString => if is_space c then EmptyString else String c EmptyString
      | r => String c r
      end
  end.

(** [str.strip()] with no argument. *)
Definition strip (s : string) : string := rstrip (lstrip s).

(** [s.rfind(c)]: the index of the last occurrence of [c]. *)
Fixpoint rfind (c : ascii) (s : string) : option nat :=
  match s with
  | EmptyString => None
  | String d s' =>
      match rfind c s' with
      | Some i => Some (S i)
      | None => if decide (d = c) then Some 0%nat else None
      end
  end.

(** [s[i:]] and [s[:i]]. *)
Fixpoint drop (i : nat) (s : string) : string :=
  match i, s with
  | O, _ => s
  | S i', String _ s' => drop i' s'
  | S _, EmptyString => EmptyString
  end.

Fixpoint take (i : nat) (s : string) : string :=
  match i, s with
  | S i', String c s' => String c (take i' s')
  | _, _ => EmptyString
  end.

(** [s.split(sep)] for a one-character separator. *)
Fixpoint split (sep : ascii) (s : string) : list string :=
  match s with
  | EmptyString => [EmptyString]
  | String c s' =>
      if decide (c = sep) then EmptyString :: split sep s'
      else match split sep s' with
           | [] => [String c EmptyString]
           | w :: ws => String c w :: ws
           end
  end.

(** [sep.join(l)]. *)
Fixpoint join (sep : string) (l : list string) : string :=
  match l with
  | [] => ""
  | [x] => x
  | x :: rest => x +:+ sep +:+ join sep rest
  end.

Definition startswith (pre s : string) : bool := String.prefix pre s.

End PyStr.

(** ** Paths

    [pathlib.PurePosixPath]: a root (["" ], ["/"] or ["//"]) and the list of
    components, with empty and ["."] components dropped when a string is
    parsed. *)

Record Path := mkPath { anchor : string; parts : list string }.

Global Instance Path_eq_dec : EqDecision Path.
Proof. solve_decision. Defined.

Global Instance Path_countable : Countable Path :=
  inj_countable' (λ p, (anchor p, parts p)) (λ x, mkPath x.1 x.2)
    (λ p, match p with mkPath _ _ => eq_refl end).

Module PathLib.

Definition root_of (s : string) : string :=
  if PyStr.startswith "///" s then "/"
  else if PyStr.startswith "//" s then "//"
  else if PyStr.startswith "/" s then "/"
  else "".

Definition keep_part (x : string) : bool :=
  PyStr.truthy x && negb (String.eqb x ".").

(** [Path(s)]. *)
Definition of_string (s : string) : Path :=
  mkPath (root_of s) (filter (λ x, Is_true (keep_part x)) (PyStr.split "/" s)).

(** [str(p)]. *)
Definition str (p : Path) : string :=
  match parts p with
  | [] => if PyStr.truthy (anchor p) then anchor p else "."
  | _ => anchor p +:+ PyStr.join "/" (parts p)
  end.

(** [p.name]: the last component, or the empty string. *)
Definition name (p : Path) : string := List.last (parts p) "".

(** [p.parent]: the path without its last component; a path with no
    component is its own parent. *)
Definition parent (p : Path) : Path :=
  match parts p with
  | [] => p
  | _ => mkPath (anchor p) (removelast (parts p))
  end.

(** [p.suffix]: from the last dot of the name, unless that dot is the
    first or the last character. *)
Definition suffix (p : Path) : string :=
  let n := name p in
  match PyStr.rfind "." n with
  | Some i =>
      if ((0 <? i)%nat && (i <? String.length n - 1)%nat)
      then PyStr.drop i n else ""
  | None => ""
  end.

(** [p.stem]: the name without its suffix. *)
Definition stem (p : Path) : string :=
  let n := name p in
  match PyStr.rfind "." n with
  | Some i =>
      if ((0 <? i)%nat && (i <? String.length n - 1)%nat)
      then PyStr.take i n else n
  | None => n
  end.

(** [p / s]: an absolute right operand replaces the left one. *)
Definition joinpath (p : Path) (s : string) : Path :=
  let q := of_string s in
  if PyStr.truthy (anchor q) then q
  else mkPath (anchor p) (parts p ++ parts q).

(** The entry called [n] of the directory [d]: what [Path(os.path.join(d, n))]
    is for a file name [n] handed out by [tempfile]. *)
Definition child (d : Path) (n : string) : Path :=
  mkPath (anchor d) (parts d ++ [n]).

End PathLib.

(** ** Tag mappings *)

(** The value of a tag. *)
Inductive exif_value :=
| VInt (n : Z)
| VStr (s : string)
| VBytes (b : string)
| VRatio (num den : Z).

Global Instance exif_value_eq_dec : EqDecision exif_value.
Proof. solve_decision. Defined.

(** [PIL.Image.Exif]: a mapping from tag ids to values. *)
Abbreviation Exif := (gmap Z exif_value).

(** An exception, with the text [str(e)] gives. *)
Inductive exn := Exception (msg : string).

Definition exn_str (e : exn) : string := match e with Exception m => m end.

(** The outcome of a call that may raise. *)
Inductive result (A : Type) :=
| Ok (a : A)
| Err (e : exn).
Arguments Ok {A} a.
Arguments Err {A} e.

(** What reading an attribute of an object gives: no such attribute, a
    value, or an exception other than [AttributeError]. *)
Inductive attr (A : Type) :=
| Absent
| Value (a : A)
| Raises (e : exn).
Arguments Absent {A}.
Arguments Value {A} a.
Arguments Raises {A} e.

(** [getattr(obj, name, default)]. *)
Definition getattr {A} (a : attr A) (default : A) : result A :=
  match a with
  | Absent => Ok default
  | Value v => Ok v
  | Raises e => Err e
  end.

(** An opened image, as far as the program looks at it. *)
Record Image := mkImage {
  im_format : option string;          (* img.format *)
  im_exif : result Exif;              (* img.getexif() *)
  im_gps_ifd : Exif;                  (* img.getexif().get_ifd(TAG_GPS_IFD) *)
  im_icc_profile : option string;     (* img.info.get("icc_profile") *)
  im_dpi : option (Z * Z);            (* img.info.get("dpi") *)
  im_is_animated : attr bool;         (* img.is_animated *)
  im_n_frames : attr Z;               (* img.n_frames *)
  im_pixels : list (list Z)           (* the pixel buffer of the current frame *)
}.

(** What the program uses of Pillow beyond the image handle. *)
Class Pillow := {
  (** [ExifTags.TAGS]: tag id to tag name. *)
  TAGS : gmap Z string;
  (** [ExifTags.GPSTAGS]. *)
  GPSTAGS : gmap Z string;
  (** [str(val)] of a tag value, as [print] shows it. *)
  value_str : exif_value → string;
  (** [ImageOps.exif_transpose]. *)
  exif_transpose : Image → result Image
}.

Section Metaclean.

Context `{Pillow}.

(** *** Configuration (lines 33 to 39) *)

Definition SUPPORTED_EXTS : list string :=
  [".jpg"; ".jpeg"; ".png"; ".webp"; ".tif"; ".tiff"].

(** [{v: k for k, v in ExifTags.TAGS.items()}].  When two ids carry one
    name, Python keeps the id that comes last in the dictionary's order;
    here the order is that of [map_fold]. *)
Definition EXIF_TAGS_REVERSE : gmap string Z :=
  map_fold (λ (k : Z) (v : string) (m : gmap string Z), <[v := k]> m) ∅ TAGS.

Definition TAG_DATETIME_ORIGINAL : option Z := EXIF_TAGS_REVERSE !! "DateTimeOriginal".
Definition TAG_ORIENTATION : option Z := EXIF_TAGS_REVERSE !! "Orientation".
Definition TAG_COPYRIGHT : option Z := EXIF_TAGS_REVERSE !! "Copyright".
Definition TAG_GPS_IFD : Z := default 34853 (EXIF_TAGS_REVERSE !! "GPSInfo").

(** [tag in exif] for a tag that may be [None]: [None] is no key of an
    [Exif]. *)
Definition tag_in (t : option Z) (e : Exif) : bool :=
  match t with
  | Some k => bool_decide (is_Some (e !! k))
  | None => false
  end.

(** Truthiness of a mapping: it is not empty. *)
Definition exif_truthy (e : Exif) : bool := negb (bool_decide (e = ∅)).

(** [new[t] = src[t]] under the guard [t in src]. *)
Definition copy_tag (t : option Z) (src new : Exif) : Exif :=
  match t with
  | Some k => match src !! k with
              | Some v => <[k := v]> new
              | None => new
              end
  | None => new
  end.

(** *** The replacement tag mapping (lines 92 to 101) *)

Definition build_new_exif (src_exif : Exif) (keep_date keep_orientation : bool)
    (copyright_text : option string) : Exif :=
  let new_exif : Exif := ∅ in
  let new_exif :=
    if exif_truthy src_exif then
      let new_exif :=
        if keep_date && tag_in TAG_DATETIME_ORIGINAL src_exif
        then copy_tag TAG_DATETIME_ORIGINAL src_exif new_exif else new_exif in
      if keep_orientation && tag_in TAG_ORIENTATION src_exif
      then copy_tag TAG_ORIENTATION src_exif new_exif else new_exif
    else new_exif in
  match copyright_text, TAG_COPYRIGHT with
  | Some text, Some k =>
      if PyStr.truthy text then <[k := VStr text]> new_exif else new_exif
  | _, _ => new_exif
  end.

(** *** Multi-frame images (lines 103 to 107) *)

Definition is_multiframe (img : Image) : bool :=
  let probe :=
    match getattr (im_is_animated img) false with
    | Err e => Err e
    | Ok true => Ok true
    | Ok false =>
        match getattr (im_n_frames img) 1 with
        | Err e => Err e
        | Ok n => Ok (1 <? n)
        end
    end in
  match probe with
  | Ok b => b
  | Err _ => false
  end.

End Metaclean.

(** ** The file system, the console and exceptions *)

(** The bytes [Exif.tobytes()] gives, kept as the mapping they encode. *)
Inductive exif_bytes :=
| EmptyBytes
| ExifToBytes (e : Exif).

(** The value of one keyword argument of [img.save]. *)
Inductive kwarg :=
| KExif (b : exif_bytes)
| KInt (n : Z)
| KBool (b : bool)
| KIcc (b : string)
| KDpi (d : Z * Z)
| KPngInfo (chunks : list (string * string)).

(** [save_kwargs]: a dictionary from argument names to values. *)
Abbreviation save_kwargs := (gmap string kwarg).

(** What a file holds. *)
Inductive content :=
| Blob (data : string)                          (* a file the program did not write *)
| EmptyFile                                     (* a temporary file just created *)
| Encoded (img : Image) (kw : save_kwargs)      (* a completed [img.save(file, **kw)] *)
| Truncated (img : Image) (kw : save_kwargs).   (* an [img.save] that raised *)

(** The calls the program makes to the file system, with their outcome, and
    the calls of the batch driver to its two workers. *)
Inductive event :=
| EMkdir (d : Path) (ok : bool)
| ECreate (p : Path)
| ESave (p : Path) (ok : bool)
| EReplace (src dst : Path) (ok : bool)
| EUnlink (p : Path) (ok : bool)
| EScan (path : string)
| EStrip (path : string).

Record World := mkWorld {
  fs : gmap Path content;     (* the files *)
  out : list string;          (* the lines printed so far *)
  trace : list event          (* the calls made so far *)
}.

(** What the operating system and Pillow answer while one candidate is
    processed. *)
Record Env := mkEnv {
  e_is_dir : result bool;         (* p.is_dir(), which raises on an OSError
                                     other than ENOENT, ENOTDIR, EBADF, ELOOP *)
  e_open : result Image;          (* Image.open(p) *)
  e_mkdir : option exn;           (* mkdir(parents=True, exist_ok=True) raises *)
  e_tmp_names : list string;      (* the random names tempfile tries, in order *)
  e_save : option exn;            (* img.save raises *)
  e_replace : option exn;         (* Path.replace raises *)
  e_unlink : option exn           (* Path.unlink raises *)
}.

(** A computation that reads and changes the world and may raise. *)
Definition Py (A : Type) : Type := World → result A * World.

Global Instance Py_ret : MRet Py := λ A a w, (Ok a, w).

Global Instance Py_bind : MBind Py := λ A B f m w,
  match m w with
  | (Ok a, w') => f a w'
  | (Err e, w') => (Err e, w')
  end.

Module PyM.

Definition raise {A} (e : exn) : Py A := λ w, (Err e, w).

Definition lift {A} (r : result A) : Py A := λ w, (r, w).

(** [try: m  except Exception as e: h e]. *)
Definition try_except {A} (m : Py A) (h : exn → Py A) : Py A := λ w,
  match m w with
  | (Ok a, w') => (Ok a, w')
  | (Err e, w') => h e w'
  end.

Definition print (line : string) : Py unit := λ w,
  (Ok tt, mkWorld (fs w) (out w ++ [line]) (trace w)).

Definition log (ev : event) : Py unit := λ w,
  (Ok tt, mkWorld (fs w) (out w) (trace w ++ [ev])).

Definition get_fs : Py (gmap Path content) := λ w, (Ok (fs w), w).

Definition set_fs (f : gmap Path content) : Py unit := λ w,
  (Ok tt, mkWorld f (out w) (trace w)).

Definition when (b : bool) (m : Py unit) : Py unit :=
  if b then m else mret tt.

Fixpoint print_all (lines : list string) : Py unit :=
  match lines with
  | [] => mret tt
  | l :: rest => print l;; print_all rest
  end.

End PyM.

Import PyM.

(** ** System calls *)

Module Sys.

(** [d.mkdir(parents=True, exist_ok=True)]. *)
Definition mkdir (e : option exn) (d : Path) : Py unit :=
  match e with
  | Some x => log (EMkdir d false);; raise x
  | None => log (EMkdir d true)
  end.

(** The first of the candidate names that no file of the directory
    carries. *)
Fixpoint fresh_name (f : gmap Path content) (dir : Path) (suffix : string)
    (names : list string) : option Path :=
  match names with
  | [] => None
  | r :: rest =>
      let p := PathLib.child dir ("tmp" +:+ r +:+ suffix) in
      match f !! p with
      | None => Some p
      | Some _ => fresh_name f dir suffix rest
      end
  end.

(** [tempfile.NamedTemporaryFile(dir=dir, delete=False, suffix=suffix)]
    followed by closing the file: an empty file under a fresh name. *)
Definition NamedTemporaryFile (names : list string) (dir : Path)
    (suffix : string) : Py Path :=
  f ← get_fs;
  match fresh_name f dir suffix names with
  | None => raise (Exception "No usable temporary file name found")
  | Some p => set_fs (<[p := EmptyFile]> f);; log (ECreate p);; mret p
  end.

(** [img.save(p, **kw)]. *)
Definition save (e : option exn) (img : Image) (p : Path)
    (kw : save_kwargs) : Py unit :=
  f ← get_fs;
  match e with
  | Some x => set_fs (<[p := Truncated img kw]> f);; log (ESave p false);; raise x
  | None => set_fs (<[p := Encoded img kw]> f);; log (ESave p true)
  end.

(** [src.replace(dst)]. *)
Definition replace (e : option exn) (src dst : Path) : Py unit :=
  f ← get_fs;
  match e, f !! src with
  | Some x, _ => log (EReplace src dst false);; raise x
  | None, None =>
      log (EReplace src dst false);;
      raise (Exception "No such file or directory")
  | None, Some c =>
      set_fs (<[dst := c]> (delete src f));; log (EReplace src dst true)
  end.

(** [p.unlink(missing_ok=True)]. *)
Definition unlink (e : option exn) (p : Path) : Py unit :=
  f ← get_fs;
  match e with
  | Some x => log (EUnlink p false);; raise x
  | None => set_fs (delete p f);; log (EUnlink p true)
  end.

End Sys.

(** ** The atomic writer (lines 109 to 123) *)

Definition save_atomic (env : Env) (img : Image) (outpath : Path)
    (kw : save_kwargs) : Py unit :=
  Sys.mkdir (e_mkdir env) (PathLib.parent outpath);;
  tmp_name ← Sys.NamedTemporaryFile (e_tmp_names env)
                (PathLib.parent outpath) (PathLib.suffix outpath);
  try_except
    (Sys.save (e_save env) img tmp_name kw;;
     Sys.replace (e_replace env) tmp_name outpath)
    (λ e,
       try_except (Sys.unlink (e_unlink env) tmp_name) (λ _, mret tt);;
       raise e).

(** ** Stripping, scanning and the batch driver *)

(** The options of one run that [strip_metadata] receives. *)
Record Policy := mkPolicy {
  outdir : option string;
  copyright_text : option string;
  keep_date : bool;
  keep_orientation : bool;
  keep_icc : bool;
  keep_dpi : bool;
  inplace : bool;
  force : bool;
  quality : Z;
  progressive : option Z
}.

(** The parsed command line. *)
Record Args := mkArgs {
  a_scan : bool;
  a_strip : bool;
  a_positives : bool;
  a_show_gps : bool;
  a_copyright : option string;
  a_keep_date : bool;
  a_keep_orientation : bool;
  a_keep_icc : bool;
  a_keep_dpi : bool;
  a_force : bool;
  a_inplace : bool;
  a_outdir : string;
  a_quality : Z;
  a_progressive : option Z;
  a_files : list string
}.

(** What surrounds one run: whether standard input is a terminal, the
    lines read from it, the answers of the system for each candidate, the
    outcome of creating the output directory, and the text of
    [parser.print_help()]. *)
Record OS := mkOS {
  isatty : bool;
  stdin_lines : list string;
  env_of : string → Env;
  outdir_mkdir : option exn;
  help_text : string
}.

Section Driver.

Context `{Pillow}.

(** *** [strip_metadata] (lines 125 to 222) *)

(** Where the cleaned image goes (lines 151 to 155). *)
Definition output_name (pol : Policy) (p : Path) : Path :=
  if inplace pol then p
  else
    let dir := match outdir pol with
               | Some d => if PyStr.truthy d then PathLib.of_string d
                           else PathLib.parent p
               | None => PathLib.parent p
               end in
    PathLib.joinpath dir (PathLib.stem p +:+ "_clean" +:+ PathLib.suffix p).

(** [save_kwargs["icc_profile"]] and [save_kwargs["dpi"]], set when the
    value is truthy (lines 178 to 181 and 193 to 196). *)
Definition with_icc_dpi (icc_profile : option string) (dpi : option (Z * Z))
    (kw : save_kwargs) : save_kwargs :=
  let kw := match icc_profile with
            | Some b => if PyStr.truthy b then <["icc_profile" := KIcc b]> kw else kw
            | None => kw
            end in
  match dpi with
  | Some d => <["dpi" := KDpi d]> kw
  | None => kw
  end.

(** The keyword arguments for JPEG, TIFF and WEBP (lines 162 to 181). *)
Definition exif_save_kwargs (pol : Policy) (fmt : string) (new_exif : Exif)
    (icc_profile : option string) (dpi : option (Z * Z)) : save_kwargs :=
  let exif_bytes :=
    if bool_decide (size new_exif ≠ 0%nat) then ExifToBytes new_exif else EmptyBytes in
  let kw : save_kwargs := <["exif" := KExif exif_bytes]> ∅ in
  let kw :=
    if bool_decide (fmt ∈ ["JPEG"; "JPG"]) then
      let kw := <["quality" := KInt (quality pol)]> kw in
      let kw := match progressive pol with
                | Some n => <["progressive" := KBool (negb (n =? 0))]> kw
                | None => kw
                end in
      <["optimize" := KBool true]> kw
    else kw in
  with_icc_dpi icc_profile dpi kw.

(** The keyword arguments for PNG (lines 189 to 199). *)
Definition png_save_kwargs (icc_profile : option string) (dpi : option (Z * Z))
    : save_kwargs :=
  <["pnginfo" := KPngInfo []]> (with_icc_dpi icc_profile dpi ∅).

Definition could_not_save (outname : Path) (e : exn) : string :=
  "[ERROR] Could not save " +:+ PathLib.str outname +:+ ": " +:+ exn_str e.

(** The body of the outer [try] (lines 135 to 210).  [None] stands for a
    [return] inside it, [Some outname] for reaching its end. *)
Definition strip_body (env : Env) (pol : Policy) (p : Path) : Py (option Path) :=
  img ← lift (e_open env);
  let fmt := PyStr.upper (default "" (im_format img)) in
  src_exif ← lift (im_exif img);
  let icc_profile := if keep_icc pol then im_icc_profile img else None in
  let dpi := if keep_dpi pol then im_dpi img else None in
  if is_multiframe img && negb (force pol) then
    print ("[SKIP] Animated/multi-frame image: " +:+ PathLib.str p
             +:+ " (use --force to process first frame)");;
    mret None
  else
    img ← (if negb (keep_orientation pol) then lift (exif_transpose img)
           else mret img);
    let outname := output_name pol p in
    let new_exif := build_new_exif src_exif (keep_date pol)
                      (keep_orientation pol) (copyright_text pol) in
    if bool_decide (fmt ∈ ["JPEG"; "JPG"; "TIFF"; "WEBP"]) then
      try_except
        (save_atomic env img outname
           (exif_save_kwargs pol fmt new_exif icc_profile dpi);;
         mret (Some outname))
        (λ e, print (could_not_save outname e);; mret None)
    else if String.eqb fmt "PNG" then
      try_except
        (save_atomic env img outname (png_save_kwargs icc_profile dpi);;
         mret (Some outname))
        (λ e, print (could_not_save outname e);; mret None)
    else
      try_except
        (save_atomic env img outname ∅;;
         print ("[WARN] Unknown/less-tested format "
                  +:+ (if PyStr.truthy fmt then fmt else PathLib.suffix p)
                  +:+ "; saved without explicit metadata.");;
         mret (Some outname))
        (λ e, print (could_not_save outname e);; mret None).

Definition strip_metadata (env : Env) (path : string) (pol : Policy) : Py unit :=
  log (EStrip path);;
  let p := PathLib.of_string path in
  r ← try_except (strip_body env pol p)
        (λ e, print ("[ERROR] Cannot open " +:+ PathLib.str p +:+ ": "
                       +:+ exn_str e);;
              mret None);
  match r with
  | None => mret tt
  | Some outname =>
      (if inplace pol
       then print ("[OK] Stripped metadata IN PLACE → " +:+ PathLib.str outname)
       else print ("[OK] Cleaned " +:+ path +:+ " → " +:+ PathLib.str outname));;
      match copyright_text pol with
      | Some text =>
          when (PyStr.truthy text) (print ("[OK] Added copyright: " +:+ text))
      | None => mret tt
      end
  end.

(** *** [scan_metadata] (lines 45 to 86) *)

(** One line per tag: the name from the registry, or [Unknown(id)].  The
    lines come in the order of [map_to_list], not in the order of the
    file.  Reading the GPS directory and formatting a value are taken not
    to raise: both happen outside the [try] of [scan_metadata]. *)
Definition pretty_exif_items (exif : Exif) : list (string * exif_value) :=
  (λ kv, (default ("Unknown(" +:+ pretty kv.1 +:+ ")") (TAGS !! kv.1), kv.2))
    <$> map_to_list exif.

Definition gps_lines (gps_ifd : Exif) : list string :=
  (λ kv, default ("GPS_" +:+ pretty kv.1) (GPSTAGS !! kv.1) +:+ ": "
           +:+ value_str kv.2)
    <$> map_to_list gps_ifd.

Definition scan_metadata (env : Env) (path : string) (verbose show_gps : bool)
    : Py bool :=
  log (EScan path);;
  r ← try_except
        (img ← lift (e_open env);
         exif ← lift (im_exif img);
         mret (Some (img, exif)))
        (λ e, when verbose (print ("[ERROR] Cannot open " +:+ path +:+ ": "
                                     +:+ exn_str e));;
              mret None);
  match r with
  | None => mret false
  | Some (img, exif) =>
      if negb (exif_truthy exif) || bool_decide (size exif = 0%nat) then
        when verbose (print ("[INFO] No EXIF metadata found in " +:+ path));;
        mret false
      else
        when verbose
          (print ("=== Metadata for " +:+ path +:+ " ===");;
           print_all ((λ tv, tv.1 +:+ ": " +:+ value_str tv.2)
                        <$> pretty_exif_items exif);;
           when (show_gps && bool_decide (is_Some (exif !! TAG_GPS_IFD)))
             (let gps_ifd := im_gps_ifd img in
              when (exif_truthy gps_ifd)
                (print "---- GPS ----";; print_all (gps_lines gps_ifd))));;
        mret true
  end.

(** *** The candidates (lines 228 to 243) *)

Definition files_from_stdin_or_args (os : OS) (files : list string) : list string :=
  (if negb (isatty os)
   then filter (λ l, Is_true (PyStr.truthy l)) (PyStr.strip <$> stdin_lines os)
   else [])
  ++ files.

(** *** [main] (lines 249 to 354) *)

Definition policy_of_args (args : Args) : Policy :=
  mkPolicy (Some (a_outdir args)) (a_copyright args) (a_keep_date args)
    (a_keep_orientation args) (a_keep_icc args) (a_keep_dpi args)
    (a_inplace args) (a_force args) (a_quality args) (a_progressive args).

(** The body of the loop over the candidates (lines 313 to 347).  The
    call [p.is_dir()] stands outside every [try]: when it raises, the body
    raises, and so does the loop. *)
Definition process (args : Args) (os : OS) (path : string) : Py unit :=
  let env := env_of os path in
  let p := PathLib.of_string path in
  is_dir ← lift (e_is_dir env);
  if is_dir : bool then
    print ("[SKIP] Directory: " +:+ PathLib.str p)
  else if negb (bool_decide (PyStr.lower (PathLib.suffix p) ∈ SUPPORTED_EXTS)) then
    print ("[SKIP] Not a supported image type: " +:+ PathLib.str p)
  else
    when (a_scan args)
      (has_meta ← scan_metadata env path (negb (a_positives args)) (a_show_gps args);
       when (a_positives args && has_meta) (print path));;
    when (a_strip args) (strip_metadata env path (policy_of_args args)).

Fixpoint run (args : Args) (os : OS) (candidates : list string) : Py unit :=
  match candidates with
  | [] => mret tt
  | path :: rest => process args os path;; run args os rest
  end.

Definition main (args : Args) (os : OS) : Py unit :=
  if negb (a_scan args) && negb (a_strip args) then
    print (help_text os)
  else
    when (a_strip args && negb (a_inplace args))
      (Sys.mkdir (outdir_mkdir os) (PathLib.of_string (a_outdir args)));;
    let candidates := files_from_stdin_or_args os (a_files args) in
    run args os candidates;;
    when (bool_decide (candidates = []))
      (if negb (a_scan args || a_strip args) then print (help_text os)
       else print "[INFO] No files provided on CLI or stdin.").

End Driver.

(** ** What a written file carries *)

Definition decode_exif (b : exif_bytes) : Exif :=
  match b with
  | EmptyBytes => ∅
  | ExifToBytes e => e
  end.

(** The tag mapping of a file saved with the keyword arguments [kw]: the
    one passed as [exif], and none when no [exif] is passed. *)
Definition output_tags (kw : save_kwargs) : Exif :=
  match kw !! "exif" with
  | Some (KExif b) => decode_exif b
  | _ => ∅
  end.

Definition file_tags (c : content) : Exif :=
  match c with
  | Encoded _ kw => output_tags kw
  | _ => ∅
  end.

(** The pixel buffer a written file was encoded from. *)
Definition file_pixels (c : content) : option (list (list Z)) :=
  match c with
  | Encoded img _ => Some (im_pixels img)
  | _ => None
  end.


(** Whether a call changes the file [q]. *)
Definition touches (q : Path) (ev : event) : bool :=
  match ev with
  | ECreate p => bool_decide (p = q)
  | ESave p _ => bool_decide (p = q)
  | EReplace src dst true => bool_decide (src = q) || bool_decide (dst = q)
  | EUnlink p true => bool_decide (p = q)
  | _ => false
  end.

(** ** A small Pillow to run the program on *)

Module Demo.

Definition tags : gmap Z string :=
  list_to_map [(271, "Make"); (274, "Orientation"); (306, "DateTime");
               (33432, "Copyright"); (34853, "GPSInfo");
               (36867, "DateTimeOriginal")].

Definition gpstags : gmap Z string :=
  list_to_map [(1, "GPSLatitudeRef"); (2, "GPSLatitude");
               (3, "GPSLongitudeRef"); (4, "GPSLongitude")].

Definition show (v : exif_value) : string :=
  match v with
  | VInt n => pretty n
  | VStr s => s
  | VBytes b => b
  | VRatio a b => pretty a +:+ "/" +:+ pretty b
  end.

Fixpoint columns (px : list (list Z)) : list (list Z) :=
  match px with
  | [] => []
  | [row] => (λ x, [x]) <$> row
  | row :: rest => zip_with cons row (columns rest)
  end.

(** The transposition for each value of the Orientation tag. *)
Definition oriented (o : Z) (px : list (list Z)) : option (list (list Z)) :=
  if o =? 2 then Some (reverse <$> px)
  else if o =? 3 then Some (reverse (reverse <$> px))
  else if o =? 4 then Some (reverse px)
  else if o =? 5 then Some (columns px)
  else if o =? 6 then Some (reverse <$> columns px)
  else if o =? 7 then Some (reverse (reverse <$> columns px))
  else if o =? 8 then Some (reverse (columns px))
  else None.

Definition transpose (img : Image) : result Image :=
  match im_exif img with
  | Err e => Err e
  | Ok ex =>
      let o := match ex !! 274 with Some (VInt n) => n | _ => 1 end in
      match oriented o (im_pixels img) with
      | Some px =>
          Ok (mkImage None (Ok (delete 274 ex)) (im_gps_ifd img)
                (im_icc_profile img) (im_dpi img) Absent Absent px)
      | None =>
          Ok (mkImage (im_format img) (Ok ex) (im_gps_ifd img)
                (im_icc_profile img) (im_dpi img) Absent Absent (im_pixels img))
      end
  end.

Global Instance pillow : Pillow := {|
  TAGS := tags;
  GPSTAGS := gpstags;
  value_str := show;
  exif_transpose := transpose
|}.

(** A photograph taken with the camera turned, carrying a date, an
    orientation, a copyright notice and a position. *)
Definition photo_exif : Exif :=
  list_to_map [(271, VStr "ACME"); (274, VInt 3); (33432, VStr "old owner");
               (34853, VInt 210); (36867, VStr "2024:05:01 10:00:00")].

Definition photo (fmt : string) : Image :=
  mkImage (Some fmt) (Ok photo_exif) {[ 1 := VStr "N" ]}
    (Some "icc") (Some (72, 72)) Absent Absent [[1; 2]; [3; 4]].


(** A system on which every call succeeds. *)
Definition env_ok (img : Image) : Env :=
  mkEnv (Ok false) (Ok img) None ["abcd1234"; "efgh5678"] None None None.

Definition env_unreadable : Env :=
  mkEnv (Ok false) (Err (Exception "cannot identify image file")) None
    ["abcd1234"] None None None.

Definition env_save_fails (img : Image) : Env :=
  mkEnv (Ok false) (Ok img) None ["abcd1234"] (Some (Exception "disk full"))
    None None.

(** An image without metadata. *)
Definition plain : Image :=
  mkImage (Some "PNG") (Ok ∅) ∅ None None Absent Absent [[5]].

(** An animation whose frames cannot be counted. *)
Definition flaky : Image :=
  mkImage (Some "WEBP") (Ok ∅) ∅ None None
    (Raises (Exception "truncated file")) (Value 4) [[7]].

Definition env_dir : Env :=
  mkEnv (Ok true) (Err (Exception "is a directory")) None [] None None None.

(** A folder with a photograph, an image without metadata, a file that is
    no image and a directory. *)
Definition env_by_path (path : string) : Env :=
  if String.eqb path "pics/a.jpg" then env_ok (photo "JPEG")
  else if String.eqb path "pics/b.png" then env_ok plain
  else if String.eqb path "pics" then env_dir
  else env_unreadable.

Definition os_args : OS := mkOS true [] env_by_path None "usage: metaclean".

(** Two lines piped in: one of spaces, one with spaces around a path. *)
Definition os_piped : OS :=
  mkOS false ["   " +:+ String "010" ""; " pics/a.jpg " +:+ String "010" ""]
    env_by_path None "usage: metaclean".

Definition world0 : World := mkWorld ∅ [] [].

Definition world1 : World :=
  mkWorld {[ PathLib.of_string "pics/a.jpg" := Blob "raw" ]} [] [].

Definition pol0 : Policy :=
  mkPolicy (Some "out") None false false false false false false 95 None.

Definition args0 : Args :=
  mkArgs false false false false None false false false false false false
    "out" 95 None [].

(** [--scan --positives] with the given files. *)
Definition args_positives (files : list string) : Args :=
  mkArgs true false true false None false false false false false false
    "out" 95 None files.

(** [--keep-orientation --copyright me]. *)
Definition pol_keep : Policy :=
  mkPolicy (Some "out") (Some "me") false true false false false false 95 None.

End Demo.

(** ** The vocabulary of the properties *)

Definition add_out (lines : list string) (w : World) : World :=
  mkWorld (fs w) (out w ++ lines) (trace w).


(** [m] only adds lines to the console, and each of them satisfies [P]. *)
Definition emits {A} (P : string → Prop) (m : Py A) : Prop :=
  ∀ w, ∃ lines, out (m w).2 = out w ++ lines ∧ Forall P lines.

(** [m] leaves the files as they are. *)
Definition readonly {A} (m : Py A) : Prop :=
  ∀ w, fs (m w).2 = fs w.

(** The calls among [evs] that change the file [q]. *)
Definition changes_of (q : Path) (evs : list event) : list event :=
  filter (λ ev, Is_true (touches q ev)) evs.

Definition set_copyright (pol : Policy) (c : option string) : Policy :=
  mkPolicy (outdir pol) c (keep_date pol) (keep_orientation pol) (keep_icc pol)
    (keep_dpi pol) (inplace pol) (force pol) (quality pol) (progressive pol).

Definition set_a_copyright (args : Args) (c : option string) : Args :=
  mkArgs (a_scan args) (a_strip args) (a_positives args) (a_show_gps args) c
    (a_keep_date args) (a_keep_orientation args) (a_keep_icc args)
    (a_keep_dpi args) (a_force args) (a_inplace args) (a_outdir args)
    (a_quality args) (a_progressive args) (a_files args).

Definition set_force (pol : Policy) (b : bool) : Policy :=
  mkPolicy (outdir pol) (copyright_text pol) (keep_date pol)
    (keep_orientation pol) (keep_icc pol) (keep_dpi pol) (inplace pol) b
    (quality pol) (progressive pol).

(** [img.format], in upper case, as [strip_metadata] compares it. *)
Definition image_format (img : Image) : string :=
  PyStr.upper (default "" (im_format img)).

(** The formats for which [strip_metadata] passes EXIF bytes to [img.save]. *)
Definition exif_formats : list string := ["JPEG"; "JPG"; "TIFF"; "WEBP"].

(** The candidates as the specification words them: the lines of standard
    input without their newline, the empty ones left out, then the
    arguments. *)
Definition chomp (line : string) : string :=
  match PyStr.rfind "010" line with
  | Some i => if (S i =? String.length line)%nat then PyStr.take i line else line
  | None => line
  end.

Definition spec_candidates (os : OS) (files : list string) : list string :=
  (if negb (isatty os)
   then filter (λ l, l ≠ "") (chomp <$> stdin_lines os)
   else [])
  ++ files.

Section Vocabulary.

Context `{Pillow}.

(** The tags copied from the source, before the copyright is set. *)
Definition kept_tags (src : Exif) (kd ko : bool) : Exif :=
  let new : Exif := ∅ in
  let new := if kd then copy_tag TAG_DATETIME_ORIGINAL src new else new in
  if ko then copy_tag TAG_ORIENTATION src new else new.

(** The keyword arguments [strip_metadata] saves the image [img] with. *)
Definition strip_kwargs (pol : Policy) (img : Image) (src : Exif) : save_kwargs :=
  let icc_profile := if keep_icc pol then im_icc_profile img else None in
  let dpi := if keep_dpi pol then im_dpi img else None in
  let new_exif := build_new_exif src (keep_date pol) (keep_orientation pol)
                    (copyright_text pol) in
  if bool_decide (image_format img ∈ exif_formats) then
    exif_save_kwargs pol (image_format img) new_exif icc_profile dpi
  else if String.eqb (image_format img) "PNG" then
    png_save_kwargs icc_profile dpi
  else ∅.

(** The run of [strip_metadata] reaches the call of [save_atomic]: the file
    opens as [img] with the tags [src], it is not skipped, and [img'] is the
    image to save. *)
Definition before_save (env : Env) (pol : Policy) (img : Image) (src : Exif)
    (img' : Image) : Prop :=
  e_open env = Ok img ∧
  im_exif img = Ok src ∧
  is_multiframe img && negb (force pol) = false ∧
  (if keep_orientation pol then img' = img else exif_transpose img = Ok img').

(** In [save_atomic], the directory is there and the temporary file [tmp]
    is created. *)
Definition reaches_save (env : Env) (pol : Policy) (w : World) (path : string)
    (img : Image) (src : Exif) (img' : Image) (tmp : Path) : Prop :=
  let outname := output_name pol (PathLib.of_string path) in
  before_save env pol img src img' ∧
  e_mkdir env = None ∧
  Sys.fresh_name (fs w) (PathLib.parent outname) (PathLib.suffix outname)
    (e_tmp_names env) = Some tmp.

(** The run goes through: the image is also encoded and renamed. *)
Definition clean_run (env : Env) (pol : Policy) (w : World) (path : string)
    (img : Image) (src : Exif) (img' : Image) (tmp : Path) : Prop :=
  reaches_save env pol w path img src img' tmp ∧
  e_save env = None ∧ e_replace env = None.

(** The lines [strip_metadata] may print. *)
Inductive strip_line (pol : Policy) : string → Prop :=
| line_skip (p : string) :
    strip_line pol ("[SKIP] Animated/multi-frame image: " +:+ p
                      +:+ " (use --force to process first frame)")
| line_could_not_save (outname : Path) (e : exn) :
    strip_line pol (could_not_save outname e)
| line_cannot_open (p : string) (e : exn) :
    strip_line pol ("[ERROR] Cannot open " +:+ p +:+ ": " +:+ exn_str e)
| line_warn (f : string) :
    strip_line pol ("[WARN] Unknown/less-tested format " +:+ f
                      +:+ "; saved without explicit metadata.")
| line_in_place (o : string) :
    strip_line pol ("[OK] Stripped metadata IN PLACE → " +:+ o)
| line_cleaned (path o : string) :
    strip_line pol ("[OK] Cleaned " +:+ path +:+ " → " +:+ o)
| line_copyright (text : string) :
    copyright_text pol = Some text → PyStr.truthy text = true →
    strip_line pol ("[OK] Added copyright: " +:+ text).

(** The file has a tag mapping that can be read and is not empty. *)
Definition has_metadata (env : Env) : bool :=
  match e_open env with
  | Ok img => match im_exif img with
              | Ok exif => exif_truthy exif
              | Err _ => false
              end
  | Err _ => false
  end.

(** The candidate is no directory and has a supported extension. *)
Definition supported (os : OS) (path : string) : Prop :=
  e_is_dir (env_of os path) = Ok false ∧
  PyStr.lower (PathLib.suffix (PathLib.of_string path)) ∈ SUPPORTED_EXTS.

End Vocabulary.

(** ** Further vocabulary *)

(** [m] keeps the file [q] with what it holds. *)
Definition preserves {A} (q : Path) (m : Py A) : Prop :=
  ∀ w c, fs w !! q = Some c → fs (m w).2 !! q = Some c.

(** The character [c] occurs in [s]. *)
Fixpoint has_char (c : ascii) (s : string) : bool :=
  match s with
  | EmptyString => false
  | String d s' => bool_decide (d = c) || has_char c s'
  end.

(** What the handle says when [is_multiframe] probes it: animated, or not
    said to be animated and more than one frame. *)
Definition reports_multiframe (img : Image) : Prop :=
  im_is_animated img = Value true
  ∨ ((im_is_animated img = Absent ∨ im_is_animated img = Value false)
     ∧ ∃ n, im_n_frames img = Value n ∧ 1 < n).

(** The directory the cleaned file goes to when it is not written in
    place. *)
Definition output_dir (pol : Policy) (p : Path) : Path :=
  match outdir pol with
  | Some d => if PyStr.truthy d then PathLib.of_string d else PathLib.parent p
  | None => PathLib.parent p
  end.

(** The string is empty or begins with a character that is no white
    space. *)
Definition starts_clean (s : string) : Prop :=
  match s with
  | EmptyString => True
  | String c _ => PyStr.is_space c = false
  end.

(** The format is one for which [strip_metadata] builds keyword
    arguments: one of the four with EXIF, or PNG. *)
Definition carries_options (img : Image) : bool :=
  bool_decide (image_format img ∈ exif_formats)
  || String.eqb (image_format img) "PNG".

(** The directory probe of the candidate answers. *)
Definition probed (os : OS) (path : string) : Prop :=
  ∃ is_dir, e_is_dir (env_of os path) = Ok is_dir.




(** [--inplace]. *)
Definition pol_inplace : Policy :=
  mkPolicy (Some "out") None false false false false true false 95 None.

(** [--keep-orientation --keep-icc --keep-dpi --progressive 1]. *)
Definition pol_colour : Policy :=
  mkPolicy (Some "out") None false true true true false false 90 (Some 1).

(** * Properties *)

#[local] Set Warnings "-clear-no-such-hyp".

Section Registry.

Context `{Pillow}.

(** An id found under a name in the reversed registry carries that name in
    the registry. *)
Lemma reverse_lookup_sound (n : string) (k : Z) :
  EXIF_TAGS_REVERSE !! n = Some k → TAGS !! k = Some n.
Proof.
  unfold EXIF_TAGS_REVERSE. revert n k.
  apply (map_fold_weak_ind
           (λ (r : gmap string Z) (m : gmap Z string),
              ∀ n k, r !! n = Some k → m !! k = Some n)).
  - intros n k Hl. by rewrite lookup_empty in Hl.
  - intros i x m r Hfresh IH n k Hl.
    destruct (decide (x = n)) as [->|Hne].
    + rewrite lookup_insert_eq in Hl. injection Hl as <-.
      by rewrite lookup_insert_eq.
    + rewrite lookup_insert_ne in Hl by done.
      specialize (IH _ _ Hl).
      rewrite lookup_insert_ne; [done|]. intros ->. congruence.
Qed.

(** Two different names never share an id. *)
Lemma reverse_lookup_distinct (n1 n2 : string) (k1 k2 : Z) :
  EXIF_TAGS_REVERSE !! n1 = Some k1 →
  EXIF_TAGS_REVERSE !! n2 = Some k2 →
  n1 ≠ n2 → k1 ≠ k2.
Proof.
  intros H1 H2 Hne ->.
  apply reverse_lookup_sound in H1, H2. congruence.
Qed.

Lemma date_not_orientation (a b : Z) :
  TAG_DATETIME_ORIGINAL = Some a → TAG_ORIENTATION = Some b → a ≠ b.
Proof. intros Ha Hb. by eapply reverse_lookup_distinct. Qed.

Lemma date_not_copyright (a b : Z) :
  TAG_DATETIME_ORIGINAL = Some a → TAG_COPYRIGHT = Some b → a ≠ b.
Proof. intros Ha Hb. by eapply reverse_lookup_distinct. Qed.

Lemma orientation_not_copyright (a b : Z) :
  TAG_ORIENTATION = Some a → TAG_COPYRIGHT = Some b → a ≠ b.
Proof. intros Ha Hb. by eapply reverse_lookup_distinct. Qed.

(** ** The replacement tag mapping *)

Lemma copy_tag_absent (t : option Z) (src new : Exif) :
  tag_in t src = false → copy_tag t src new = new.
Proof.
  destruct t as [k|]; [|done]. simpl. intros Hin.
  destruct (src !! k) eqn:E; [|done].
  rewrite bool_decide_eq_true_2 in Hin; [done|by eexists].
Qed.

Lemma copy_tag_empty (t : option Z) (new : Exif) : copy_tag t ∅ new = new.
Proof. destruct t; [|done]. simpl. by rewrite lookup_empty. Qed.

(** [build_new_exif] without its guards, which only skip copies that would
    copy nothing. *)
Lemma build_new_exif_unfold (src : Exif) (kd ko : bool) (cp : option string) :
  build_new_exif src kd ko cp =
  match cp, TAG_COPYRIGHT with
  | Some text, Some k =>
      if PyStr.truthy text then <[k := VStr text]> (kept_tags src kd ko)
      else kept_tags src kd ko
  | _, _ => kept_tags src kd ko
  end.
Proof.
  unfold build_new_exif, kept_tags.
  assert ((if exif_truthy src
           then if ko && tag_in TAG_ORIENTATION src
                then copy_tag TAG_ORIENTATION src
                       (if kd && tag_in TAG_DATETIME_ORIGINAL src
                        then copy_tag TAG_DATETIME_ORIGINAL src ∅ else ∅)
                else if kd && tag_in TAG_DATETIME_ORIGINAL src
                     then copy_tag TAG_DATETIME_ORIGINAL src ∅ else ∅
           else (∅ : Exif))
          = (if ko then copy_tag TAG_ORIENTATION src
                          (if kd then copy_tag TAG_DATETIME_ORIGINAL src ∅ else ∅)
             else if kd then copy_tag TAG_DATETIME_ORIGINAL src ∅ else ∅)) as E.
  { destruct (exif_truthy src) eqn:Et.
    - destruct kd, ko; simpl;
        destruct (tag_in TAG_DATETIME_ORIGINAL src) eqn:E1;
        destruct (tag_in TAG_ORIENTATION src) eqn:E2;
        rewrite ?(copy_tag_absent _ _ _ E1), ?(copy_tag_absent _ _ _ E2); done.
    - unfold exif_truthy in Et. apply negb_false_iff, bool_decide_eq_true in Et.
      subst src. rewrite !copy_tag_empty. by destruct kd, ko. }
  cbv zeta in *. destruct cp as [text|], TAG_COPYRIGHT as [k|]; try done.
  destruct (PyStr.truthy text); by rewrite E.
Qed.

Lemma kept_tags_lookup (src : Exif) (kd ko : bool) (t : Z) (v : exif_value) :
  kept_tags src kd ko !! t = Some v ↔
  src !! t = Some v ∧
  ((kd = true ∧ TAG_DATETIME_ORIGINAL = Some t) ∨
   (ko = true ∧ TAG_ORIENTATION = Some t)).
Proof.
  unfold kept_tags, copy_tag.
  destruct kd, ko, TAG_DATETIME_ORIGINAL as [a|], TAG_ORIENTATION as [b|];
    repeat match goal with
           | |- context [match ?m !! ?k with _ => _ end] =>
               let E := fresh "E" in destruct (m !! k) eqn:E
           end;
    rewrite ?lookup_insert, ?lookup_empty;
    repeat case_decide; simplify_eq; naive_solver.
Qed.

End Registry.

Section ReplacementTags.

Context `{Pillow}.

Lemma truthy_nonempty (s : string) : PyStr.truthy s = true ↔ s ≠ "".
Proof. destruct s; simpl; split; congruence. Qed.

Lemma kept_tags_copyright (src : Exif) (kd ko : bool) (t : Z) :
  TAG_COPYRIGHT = Some t → kept_tags src kd ko !! t = None.
Proof.
  intros Ht. destruct (kept_tags src kd ko !! t) as [v|] eqn:E; [|done].
  apply kept_tags_lookup in E as [_ [[_ Hd]|[_ Ho]]].
  - by destruct (date_not_copyright _ _ Hd Ht).
  - by destruct (orientation_not_copyright _ _ Ho Ht).
Qed.

(** What [build_new_exif] holds under an id that is not the copyright's. *)
Lemma build_new_exif_other (src : Exif) (kd ko : bool) (cp : option string)
    (t : Z) :
  TAG_COPYRIGHT ≠ Some t →
  build_new_exif src kd ko cp !! t = kept_tags src kd ko !! t.
Proof.
  intros Hne. rewrite build_new_exif_unfold.
  destruct cp as [text|], TAG_COPYRIGHT as [k|]; try done.
  destruct (PyStr.truthy text); [|done].
  rewrite lookup_insert_ne; [done|congruence].
Qed.

(** What [build_new_exif] holds under the copyright's id. *)
Lemma build_new_exif_copyright (src : Exif) (kd ko : bool)
    (cp : option string) (t : Z) :
  TAG_COPYRIGHT = Some t →
  build_new_exif src kd ko cp !! t =
  match cp with
  | Some s => if PyStr.truthy s then Some (VStr s) else None
  | None => None
  end.
Proof.
  intros Ht. rewrite build_new_exif_unfold, Ht.
  destruct cp as [s|]; [destruct (PyStr.truthy s)|];
    by rewrite ?lookup_insert_eq, ?kept_tags_copyright.
Qed.

(** What [build_new_exif] holds under the ids of the two tags it copies. *)
Lemma build_new_exif_date (src : Exif) (kd ko : bool) (cp : option string)
    (t : Z) :
  TAG_DATETIME_ORIGINAL = Some t →
  build_new_exif src kd ko cp !! t = if kd then src !! t else None.
Proof.
  intros Ht.
  assert (TAG_COPYRIGHT ≠ Some t) as Hne.
  { intros Hc. by destruct (date_not_copyright _ _ Ht Hc). }
  rewrite build_new_exif_other by done. apply option_eq. intros v.
  rewrite kept_tags_lookup. split.
  - intros [Hs [[-> _]|[_ Ho]]]; [done|].
    by destruct (date_not_orientation _ _ Ht Ho).
  - destruct kd; [|done]. auto.
Qed.

Lemma build_new_exif_orientation (src : Exif) (kd ko : bool)
    (cp : option string) (t : Z) :
  TAG_ORIENTATION = Some t →
  build_new_exif src kd ko cp !! t = if ko then src !! t else None.
Proof.
  intros Ht.
  assert (TAG_COPYRIGHT ≠ Some t) as Hne.
  { intros Hc. by destruct (orientation_not_copyright _ _ Ht Hc). }
  rewrite build_new_exif_other by done. apply option_eq. intros v.
  rewrite kept_tags_lookup. split.
  - intros [Hs [[_ Hd]|[-> _]]]; [|done].
    by destruct (date_not_orientation _ _ Hd Ht).
  - destruct ko; [|done]. auto.
Qed.

(** C1, as amended.  The replacement tag mapping holds DateTimeOriginal
    with the source's value exactly when [keep_date] is set and the source
    has the tag, Orientation with the source's value exactly when
    [keep_orientation] is set and the source has the tag, Copyright with the
    supplied string exactly when a string that is not empty was supplied,
    whatever the source holds, and no other tag. *)
Theorem build_new_exif_tags (src : Exif) (kd ko : bool) (cp : option string) :
  let new := build_new_exif src kd ko cp in
  (∀ t v, TAG_DATETIME_ORIGINAL = Some t →
          new !! t = Some v ↔ kd = true ∧ src !! t = Some v) ∧
  (∀ t v, TAG_ORIENTATION = Some t →
          new !! t = Some v ↔ ko = true ∧ src !! t = Some v) ∧
  (∀ t v, TAG_COPYRIGHT = Some t →
          new !! t = Some v ↔ ∃ s, cp = Some s ∧ s ≠ "" ∧ v = VStr s) ∧
  (∀ t, is_Some (new !! t) →
        TAG_DATETIME_ORIGINAL = Some t ∨ TAG_ORIENTATION = Some t
        ∨ TAG_COPYRIGHT = Some t).
Proof.
  intros new. subst new. split; [|split; [|split]].
  - intros t v Ht. rewrite (build_new_exif_date _ _ _ _ _ Ht).
    destruct kd; naive_solver.
  - intros t v Ht. rewrite (build_new_exif_orientation _ _ _ _ _ Ht).
    destruct ko; naive_solver.
  - intros t v Ht. rewrite (build_new_exif_copyright _ _ _ _ _ Ht). split.
    + destruct cp as [s|]; [|done]. destruct (PyStr.truthy s) eqn:Et; [|done].
      intros [= <-]. exists s. by apply truthy_nonempty in Et.
    + intros (s & -> & Hs & ->). apply truthy_nonempty in Hs. by rewrite Hs.
  - intros t [v Hl].
    destruct (decide (TAG_COPYRIGHT = Some t)) as [|Hne]; [auto|].
    rewrite build_new_exif_other in Hl by done.
    apply kept_tags_lookup in Hl as [_ [[_ ?]|[_ ?]]]; auto.
Qed.

End ReplacementTags.

(** On the photograph, keeping the date and setting a copyright. *)
Lemma build_new_exif_tags_witness :
  let new := build_new_exif Demo.photo_exif true false (Some "me") in
  new !! 36867 = Some (VStr "2024:05:01 10:00:00") ∧
  new !! 33432 = Some (VStr "me") ∧
  new !! 274 = None.
Proof.
  pose proof (build_new_exif_tags Demo.photo_exif true false (Some "me"))
    as (Hd & Ho & Hc & _).
  cbv zeta in *. split; [|split].
  - apply Hd; [reflexivity|]. split; reflexivity.
  - apply Hc; [reflexivity|]. exists "me". split; [reflexivity|]. split; [discriminate|reflexivity].
  - destruct (build_new_exif Demo.photo_exif true false (Some "me") !! 274)
      as [v|] eqn:E; [|reflexivity].
    apply Ho in E; [|reflexivity]. destruct E as [E _]. discriminate E.
Defined.

(** C1, as stated, fails when the empty string is supplied: a copyright
    string was provided, and the replacement tag mapping holds no Copyright
    tag. *)
Lemma build_new_exif_empty_copyright :
  @TAG_COPYRIGHT Demo.pillow = Some 33432 ∧
  build_new_exif ∅ false false (Some "") !! 33432 ≠ Some (VStr "").
Proof. split; [reflexivity|]. vm_compute. discriminate. Qed.

(** ** Running the small steps *)

Lemma bind_run {A B} (m : Py A) (f : A → Py B) (w : World) :
  (m ≫= f) w = match m w with
               | (Ok a, w') => f a w'
               | (Err e, w') => (Err e, w')
               end.
Proof. reflexivity. Qed.

Lemma try_run {A} (m : Py A) (h : exn → Py A) (w : World) :
  try_except m h w = match m w with
                     | (Ok a, w') => (Ok a, w')
                     | (Err e, w') => h e w'
                     end.
Proof. reflexivity. Qed.

(** Unfolds the primitive steps of the monad. *)
Ltac py_unfold :=
  unfold mbind, Py_bind, mret, Py_ret, lift, print, log, raise, try_except,
    when, get_fs, set_fs in *.

Section Returns.

Context {A B : Type}.




End Returns.





Section Emits.

Context {A B : Type} (P : string → Prop).

Lemma emits_ret (a : A) : emits P (mret a : Py A).
Proof. intros w. exists []. by rewrite app_nil_r. Qed.

Lemma emits_raise (e : exn) : emits P (raise e : Py A).
Proof. intros w. exists []. by rewrite app_nil_r. Qed.

Lemma emits_lift (r : result A) : emits P (lift r).
Proof. intros w. exists []. by rewrite app_nil_r. Qed.

Lemma emits_bind (m : Py A) (f : A → Py B) :
  emits P m → (∀ a, emits P (f a)) → emits P (m ≫= f).
Proof.
  intros Hm Hf w. destruct (Hm w) as (l1 & E1 & F1).
  rewrite bind_run. destruct (m w) as [[a|e] w1]; simpl in *.
  - destruct (Hf a w1) as (l2 & E2 & F2). exists (l1 ++ l2).
    rewrite E2, E1, app_assoc. split; [done|]. by apply Forall_app.
  - by exists l1.
Qed.

Lemma emits_try (m : Py A) (h : exn → Py A) :
  emits P m → (∀ e, emits P (h e)) → emits P (try_except m h).
Proof.
  intros Hm Hh w. destruct (Hm w) as (l1 & E1 & F1).
  rewrite try_run. destruct (m w) as [[a|e] w1]; simpl in *.
  - by exists l1.
  - destruct (Hh e w1) as (l2 & E2 & F2). exists (l1 ++ l2).
    rewrite E2, E1, app_assoc. split; [done|]. by apply Forall_app.
Qed.

End Emits.

Lemma emits_print (P : string → Prop) (line : string) :
  P line → emits P (print line).
Proof. intros HP w. exists [line]. split; [done|]. by constructor. Qed.

Lemma emits_log (P : string → Prop) (ev : event) : emits P (log ev).
Proof. intros w. exists []. by rewrite app_nil_r. Qed.

Lemma emits_get_fs (P : string → Prop) : emits P get_fs.
Proof. intros w. exists []. by rewrite app_nil_r. Qed.

Lemma emits_set_fs (P : string → Prop) (f : gmap Path content) :
  emits P (set_fs f).
Proof. intros w. exists []. simpl. by rewrite app_nil_r. Qed.

Lemma emits_weaken {A} (P Q : string → Prop) (m : Py A) :
  (∀ l, P l → Q l) → emits P m → emits Q m.
Proof.
  intros HPQ Hm w. destruct (Hm w) as (l & E & F). exists l.
  split; [done|]. eapply Forall_impl; eauto.
Qed.

(** One step of the proof that a program emits: follow its structure. *)
Ltac emits_step :=
  lazymatch goal with
  | |- emits _ (mret _) => apply emits_ret
  | |- emits _ (raise _) => apply emits_raise
  | |- emits _ (lift _) => apply emits_lift
  | |- emits _ (log _) => apply emits_log
  | |- emits _ get_fs => apply emits_get_fs
  | |- emits _ (set_fs _) => apply emits_set_fs
  | |- emits _ (when ?b _) => destruct b eqn:?; cbn [when]
  | |- emits _ (try_except _ _) => apply emits_try; [|intro]
  | |- emits _ (_ ≫= _) => apply emits_bind; [|intro]
  | |- emits _ (match ?x with _ => _ end) => destruct x eqn:?
  end.

(** ** The atomic writer *)

Lemma fresh_name_spec (f : gmap Path content) (dir : Path) (suffix : string)
    (names : list string) (p : Path) :
  Sys.fresh_name f dir suffix names = Some p →
  f !! p = None ∧
  ∃ r, r ∈ names ∧ p = PathLib.child dir ("tmp" +:+ r +:+ suffix).
Proof.
  induction names as [|r names IH]; [done|]. simpl.
  destruct (f !! PathLib.child dir ("tmp" +:+ r +:+ suffix)) eqn:E.
  - intros Hn. destruct (IH Hn) as (? & r' & ? & ?).
    split; [done|]. exists r'. split; [by right|done].
  - intros [= <-]. split; [done|]. exists r. split; [by left|done].
Qed.

Lemma parent_child (d : Path) (n : string) :
  PathLib.parent (PathLib.child d n) = d.
Proof.
  unfold PathLib.parent, PathLib.child. simpl.
  destruct (parts d ++ [n]) eqn:E.
  - by destruct (app_cons_not_nil _ _ _ (eq_sym E)).
  - rewrite <- E, removelast_last. by destruct d.
Qed.

(** A temporary file lies in the directory it was asked for. *)
Lemma fresh_name_parent (f : gmap Path content) (dir : Path)
    (suffix : string) (names : list string) (p : Path) :
  Sys.fresh_name f dir suffix names = Some p → PathLib.parent p = dir.
Proof.
  intros Hn. apply fresh_name_spec in Hn as (_ & r & _ & ->).
  apply parent_child.
Qed.

(** A file that exists is never taken as the temporary file. *)
Lemma fresh_name_not_existing (f : gmap Path content) (dir : Path)
    (suffix : string) (names : list string) (p q : Path) :
  Sys.fresh_name f dir suffix names = Some p → is_Some (f !! q) → p ≠ q.
Proof.
  intros Hn [c Hq] ->. apply fresh_name_spec in Hn as [Hp _]. congruence.
Qed.

Lemma save_atomic_emits (P : string → Prop) (env : Env) (img : Image)
    (outpath : Path) (kw : save_kwargs) :
  emits P (save_atomic env img outpath kw).
Proof.
  unfold save_atomic, Sys.mkdir, Sys.NamedTemporaryFile, Sys.save,
    Sys.replace, Sys.unlink.
  repeat emits_step.
Qed.

(** The run of [save_atomic] when every call succeeds. *)
Lemma save_atomic_success (env : Env) (img : Image) (outpath : Path)
    (kw : save_kwargs) (w : World) (tmp : Path) :
  e_mkdir env = None →
  Sys.fresh_name (fs w) (PathLib.parent outpath) (PathLib.suffix outpath)
    (e_tmp_names env) = Some tmp →
  e_save env = None →
  e_replace env = None →
  save_atomic env img outpath kw w =
  (Ok tt,
   mkWorld (<[outpath := Encoded img kw]> (fs w)) (out w)
     (trace w ++ [EMkdir (PathLib.parent outpath) true; ECreate tmp;
                  ESave tmp true; EReplace tmp outpath true])).
Proof.
  intros Hm Hn Hs Hr. pose proof (fresh_name_spec _ _ _ _ _ Hn) as [Hf _].
  unfold save_atomic, Sys.mkdir, Sys.NamedTemporaryFile, Sys.save,
    Sys.replace, Sys.unlink. py_unfold.
  rewrite Hm, Hs, Hr. simpl. rewrite Hn. simpl.
  rewrite lookup_insert_eq. simpl.
  rewrite !delete_insert_eq, delete_id by done.
  by rewrite <- !app_assoc.
Qed.

(** The run of [save_atomic] when encoding or renaming raises [e]: the
    error comes back, and the temporary file is unlinked, or left with
    what it holds when unlinking raises too. *)
Lemma save_atomic_failure (env : Env) (img : Image) (outpath : Path)
    (kw : save_kwargs) (w : World) (tmp : Path) (e : exn) :
  e_mkdir env = None →
  Sys.fresh_name (fs w) (PathLib.parent outpath) (PathLib.suffix outpath)
    (e_tmp_names env) = Some tmp →
  e_save env = Some e ∨ (e_save env = None ∧ e_replace env = Some e) →
  ∃ c ev,
    save_atomic env img outpath kw w =
    (Err e,
     mkWorld (match e_unlink env with
              | None => fs w
              | Some _ => <[tmp := c]> (fs w)
              end)
       (out w)
       (trace w ++ [EMkdir (PathLib.parent outpath) true; ECreate tmp]
          ++ ev ++ [EUnlink tmp (bool_decide (e_unlink env = None))]))
    ∧ (ev = [ESave tmp false] ∨ ev = [ESave tmp true; EReplace tmp outpath false]).
Proof.
  intros Hm Hn Hfail. pose proof (fresh_name_spec _ _ _ _ _ Hn) as [Hf _].
  unfold save_atomic, Sys.mkdir, Sys.NamedTemporaryFile, Sys.save,
    Sys.replace, Sys.unlink. py_unfold.
  rewrite Hm. simpl. rewrite Hn. simpl.
  destruct Hfail as [Hs|[Hs Hr]]; rewrite Hs; [|rewrite Hr]; simpl;
    destruct (e_unlink env) as [x|]; simpl;
    repeat rewrite delete_insert_eq; rewrite ?insert_insert_eq, ?delete_id by done;
    rewrite <- ?app_assoc; simpl.
  1, 2: by exists (Truncated img kw), [ESave tmp false]; auto.
  all: by exists (Encoded img kw), [ESave tmp true; EReplace tmp outpath false];
         auto.
Qed.

Lemma touches_create_other (p q : Path) : p ≠ q → ¬ touches q (ECreate p).
Proof. intros Hne. simpl. rewrite bool_decide_eq_false_2 by done. intros []. Qed.

Lemma touches_save_other (p q : Path) (ok : bool) :
  p ≠ q → ¬ touches q (ESave p ok).
Proof. intros Hne. simpl. rewrite bool_decide_eq_false_2 by done. intros []. Qed.

Lemma touches_unlink_other (p q : Path) (ok : bool) :
  p ≠ q → ¬ touches q (EUnlink p ok).
Proof.
  intros Hne. destruct ok; simpl; rewrite ?bool_decide_eq_false_2 by done;
    intros [].
Qed.

Lemma touches_replace_to (p q : Path) : touches q (EReplace p q true).
Proof. simpl. rewrite (bool_decide_eq_true_2 (q = q)) by done. by rewrite orb_true_r. Qed.

(** C2.  When the temporary file has been created and encoding or renaming
    raises, the temporary file is unlinked, the error of the failed step
    reaches the caller whether unlinking succeeds or raises, and the
    destination holds what it held before, or still does not exist.  When
    every step succeeds, the only call that changes the destination is the
    renaming of the temporary file, a file created by this call in the
    destination's own directory. *)
Theorem save_atomic_is_atomic (env : Env) (img : Image) (outpath : Path)
    (kw : save_kwargs) (w : World) (tmp : Path) :
  e_mkdir env = None →
  Sys.fresh_name (fs w) (PathLib.parent outpath) (PathLib.suffix outpath)
    (e_tmp_names env) = Some tmp →
  tmp ≠ outpath →
  let r := (save_atomic env img outpath kw w).1 in
  let w' := (save_atomic env img outpath kw w).2 in
  PathLib.parent tmp = PathLib.parent outpath ∧
  ∃ evs, trace w' = trace w ++ evs ∧ ECreate tmp ∈ evs ∧
    match e_save env, e_replace env with
    | None, None =>
        r = Ok tt ∧
        fs w' = <[outpath := Encoded img kw]> (fs w) ∧
        changes_of outpath evs = [EReplace tmp outpath true]
    | Some e, _ | None, Some e =>
        r = Err e ∧
        fs w' !! outpath = fs w !! outpath ∧
        changes_of outpath evs = [] ∧
        last evs = Some (EUnlink tmp (bool_decide (e_unlink env = None))) ∧
        (e_unlink env = None → fs w' = fs w)
    end.
Proof.
  intros Hm Hn Hne r w'. subst r w'.
  split; [by eapply fresh_name_parent|].
  assert (∀ e, e_save env = Some e ∨ (e_save env = None ∧ e_replace env = Some e) →
     ∃ evs, trace (save_atomic env img outpath kw w).2 = trace w ++ evs
       ∧ ECreate tmp ∈ evs
       ∧ (save_atomic env img outpath kw w).1 = Err e
       ∧ fs (save_atomic env img outpath kw w).2 !! outpath = fs w !! outpath
       ∧ changes_of outpath evs = []
       ∧ last evs = Some (EUnlink tmp (bool_decide (e_unlink env = None)))
       ∧ (e_unlink env = None → fs (save_atomic env img outpath kw w).2 = fs w))
    as Hfail.
  { intros e He.
    destruct (save_atomic_failure env img outpath kw w tmp e Hm Hn He)
      as (c & ev & -> & Hev). simpl.
    eexists. split; [reflexivity|]. split; [set_solver|].
    split; [done|]. split; [|split; [|split]].
    - destruct (e_unlink env); [|done]. by rewrite lookup_insert_ne.
    - unfold changes_of.
      rewrite filter_cons_False by (simpl; intros []).
      rewrite filter_cons_False by by apply touches_create_other.
      rewrite filter_app.
      rewrite (filter_cons_False _ (EUnlink _ _))
        by by apply touches_unlink_other.
      destruct Hev as [->| ->].
      + by rewrite filter_cons_False by by apply touches_save_other.
      + rewrite filter_cons_False by by apply touches_save_other.
        by rewrite filter_cons_False by (simpl; intros []).
    - destruct Hev as [->| ->]; done.
    - by intros ->. }
  destruct (e_save env) as [e|] eqn:Hs.
  - destruct (Hfail e) as (evs & ? & ? & ? & ? & ? & ? & ?); [auto|]. eauto 10.
  - destruct (e_replace env) as [e|] eqn:Hr.
    + destruct (Hfail e) as (evs & ? & ? & ? & ? & ? & ? & ?); [auto|]. eauto 10.
    + rewrite (save_atomic_success env img outpath kw w tmp) by done. simpl.
      eexists. split; [reflexivity|]. split; [set_solver|].
      split; [done|]. split; [done|]. unfold changes_of.
      rewrite filter_cons_False by (simpl; intros []).
      rewrite filter_cons_False by by apply touches_create_other.
      rewrite filter_cons_False by by apply touches_save_other.
      by rewrite filter_cons_True by apply touches_replace_to.
Qed.

(** A full disk while the cleaned copy of a photograph is encoded. *)
Lemma save_atomic_is_atomic_witness :
  let env := Demo.env_save_fails (Demo.photo "JPEG") in
  let outpath := PathLib.of_string "pics/a.jpg" in
  let tmp := PathLib.of_string "pics/tmpabcd1234.jpg" in
  let run := save_atomic env (Demo.photo "JPEG") outpath ∅ Demo.world1 in
  e_mkdir env = None ∧
  Sys.fresh_name (fs Demo.world1) (PathLib.parent outpath)
    (PathLib.suffix outpath) (e_tmp_names env) = Some tmp ∧
  tmp ≠ outpath ∧
  run.1 = Err (Exception "disk full") ∧
  fs run.2 !! outpath = Some (Blob "raw") ∧
  fs run.2 = fs Demo.world1.
Proof.
  intros env outpath tmp run.
  assert (e_mkdir env = None) as Hm by reflexivity.
  assert (Sys.fresh_name (fs Demo.world1) (PathLib.parent outpath)
            (PathLib.suffix outpath) (e_tmp_names env) = Some tmp) as Hn
    by reflexivity.
  assert (tmp ≠ outpath) as Hne by discriminate.
  destruct (save_atomic_is_atomic env (Demo.photo "JPEG") outpath ∅
              Demo.world1 tmp Hm Hn Hne)
    as (_ & evs & _ & _ & Hr & Hd & _ & _ & Hfs).
  subst run. split; [exact Hm|]. split; [exact Hn|]. split; [exact Hne|].
  split; [exact Hr|]. split.
  - rewrite Hd. reflexivity.
  - apply Hfs. reflexivity.
Defined.

(** ** The keyword arguments of a save *)

Arguments save_atomic : simpl never.
Arguments build_new_exif : simpl never.
Arguments is_multiframe : simpl never.
Arguments output_name : simpl never.
Arguments exif_save_kwargs : simpl never.
Arguments png_save_kwargs : simpl never.
Arguments PathLib.of_string : simpl never.
Arguments PathLib.str : simpl never.
Arguments PathLib.suffix : simpl never.
Arguments PathLib.parent : simpl never.
Arguments PyStr.upper : simpl never.
Arguments PyStr.lower : simpl never.

Section StripRuns.

Context `{Pillow}.

Lemma with_icc_dpi_lookup (icc_profile : option string) (dpi : option (Z * Z))
    (kw : save_kwargs) (k : string) :
  k ≠ "icc_profile" → k ≠ "dpi" →
  with_icc_dpi icc_profile dpi kw !! k = kw !! k.
Proof.
  intros H1 H2. unfold with_icc_dpi.
  destruct dpi; rewrite ?lookup_insert_ne by done;
    destruct icc_profile as [b|]; try done;
    destruct (PyStr.truthy b); by rewrite ?lookup_insert_ne.
Qed.

Lemma exif_save_kwargs_lookup (pol : Policy) (fmt : string) (new_exif : Exif)
    (icc_profile : option string) (dpi : option (Z * Z)) (k : string) :
  k ∉ ["icc_profile"; "dpi"; "quality"; "progressive"; "optimize"] →
  exif_save_kwargs pol fmt new_exif icc_profile dpi !! k
  = ({[ "exif" := KExif (if bool_decide (size new_exif ≠ 0%nat)
                          then ExifToBytes new_exif else EmptyBytes) ]}
       : save_kwargs) !! k.
Proof.
  intros Hk. unfold exif_save_kwargs.
  rewrite with_icc_dpi_lookup by set_solver.
  destruct (bool_decide (fmt ∈ ["JPEG"; "JPG"])), (progressive pol);
    rewrite ?lookup_insert_ne by set_solver; by rewrite insert_empty.
Qed.

(** The tags of the written file: the replacement mapping for the formats
    that carry EXIF, none for the others. *)
Lemma output_tags_strip_kwargs (pol : Policy) (img : Image) (src : Exif) :
  output_tags (strip_kwargs pol img src) =
  if bool_decide (image_format img ∈ exif_formats)
  then build_new_exif src (keep_date pol) (keep_orientation pol)
         (copyright_text pol)
  else ∅.
Proof.
  unfold output_tags, strip_kwargs.
  destruct (bool_decide (image_format img ∈ exif_formats)).
  - rewrite exif_save_kwargs_lookup by set_solver.
    rewrite lookup_singleton_eq. case_bool_decide as Hs; [done|]. simpl.
    symmetry. apply map_size_empty_iff. lia.
  - destruct (String.eqb (image_format img) "PNG"); [|done].
    unfold png_save_kwargs.
    rewrite lookup_insert_ne by done.
    by rewrite with_icc_dpi_lookup, lookup_empty by done.
Qed.


(** ** Runs of [strip_metadata] *)


Lemma strip_metadata_emits (env : Env) (path : string) (pol : Policy) :
  emits (strip_line pol) (strip_metadata env path pol).
Proof.
  unfold strip_metadata, strip_body. cbv zeta.
  repeat first
    [ apply save_atomic_emits
    | apply emits_print; by constructor
    | emits_step ].
Qed.

(** The run that goes through writes the image under its output name and
    nothing else. *)
Lemma strip_metadata_clean (env : Env) (pol : Policy) (w : World)
    (path : string) (img : Image) (src : Exif) (img' : Image) (tmp : Path) :
  clean_run env pol w path img src img' tmp →
  let outname := output_name pol (PathLib.of_string path) in
  let run := strip_metadata env path pol w in
  run.1 = Ok tt ∧
  fs run.2 = <[outname := Encoded img' (strip_kwargs pol img src)]> (fs w) ∧
  trace run.2 = trace w ++ [EStrip path; EMkdir (PathLib.parent outname) true;
                            ECreate tmp; ESave tmp true;
                            EReplace tmp outname true].
Proof.
  intros [((Hopen & Hexif & Hskip & Himg) & Hm & Hn) [Hs Hr]] outname run.
  subst run outname. unfold strip_metadata, strip_body, strip_kwargs,
    image_format, exif_formats.
  py_unfold. simpl. rewrite Hopen. simpl. rewrite Hexif. simpl.
  rewrite Hskip. simpl.
  destruct (keep_orientation pol) eqn:Hko; simpl;
    [subst img'|rewrite Himg; simpl].
  all: destruct (bool_decide (_ ∈ _)); [|destruct (String.eqb _ _)]; simpl;
    (erewrite save_atomic_success; [|done|simpl; exact Hn|done|done]); simpl;
    destruct (inplace pol), (copyright_text pol) as [text|]; simpl;
    try destruct (PyStr.truthy text); simpl;
    rewrite <- ?app_assoc; done.
Qed.

(** What the run that goes through prints. *)
Lemma strip_metadata_clean_out (env : Env) (pol : Policy) (w : World)
    (path : string) (img : Image) (src : Exif) (img' : Image) (tmp : Path) :
  clean_run env pol w path img src img' tmp →
  let p := PathLib.of_string path in
  let outname := PathLib.str (output_name pol p) in
  out (strip_metadata env path pol w).2 =
  out w
  ++ (if carries_options img then []
      else ["[WARN] Unknown/less-tested format "
              +:+ (if PyStr.truthy (image_format img) then image_format img
                   else PathLib.suffix p)
              +:+ "; saved without explicit metadata."])
  ++ [if inplace pol then "[OK] Stripped metadata IN PLACE → " +:+ outname
      else "[OK] Cleaned " +:+ path +:+ " → " +:+ outname]
  ++ match copyright_text pol with
     | Some text =>
         if PyStr.truthy text then ["[OK] Added copyright: " +:+ text] else []
     | None => []
     end.
Proof.
  intros [((Hopen & Hexif & Hskip & Himg) & Hm & Hn) [Hs Hr]] p outname.
  subst p outname. unfold strip_metadata, strip_body, carries_options,
    image_format, exif_formats.
  py_unfold. simpl. rewrite Hopen. simpl. rewrite Hexif. simpl.
  rewrite Hskip. simpl.
  destruct (keep_orientation pol) eqn:Hko; simpl;
    [subst img'|rewrite Himg; simpl].
  all: destruct (bool_decide (_ ∈ _)); [|destruct (String.eqb _ _)]; simpl;
    (erewrite save_atomic_success; [|done|simpl; exact Hn|done|done]); simpl;
    destruct (inplace pol), (copyright_text pol) as [text|]; simpl;
    try destruct (PyStr.truthy text); simpl;
    rewrite <- ?app_assoc; done.
Qed.




(** C3, as amended.  In a run that goes through with a copyright string
    that is not empty, the written file carries that string as its
    Copyright tag when the format of the input is JPEG, TIFF or WEBP,
    whatever copyright the source held; for PNG and for every other format
    no tag mapping is passed to the encoder and the written file carries no
    Copyright tag. *)
Theorem copyright_written (env : Env) (pol : Policy) (w : World)
    (path : string) (img : Image) (src : Exif) (img' : Image) (tmp : Path)
    (s : string) (t : Z) :
  clean_run env pol w path img src img' tmp →
  copyright_text pol = Some s →
  s ≠ "" →
  TAG_COPYRIGHT = Some t →
  let outname := output_name pol (PathLib.of_string path) in
  let w' := (strip_metadata env path pol w).2 in
  ∃ c, fs w' !! outname = Some c ∧
       file_tags c !! t =
       if bool_decide (image_format img ∈ exif_formats)
       then Some (VStr s) else None.
Proof.
  intros Hrun Hcp Hs Ht outname w'. subst outname w'.
  destruct (strip_metadata_clean _ _ _ _ _ _ _ _ Hrun) as (_ & -> & _).
  eexists. split; [apply lookup_insert_eq|]. simpl.
  rewrite output_tags_strip_kwargs. case_bool_decide; [|done].
  rewrite (build_new_exif_copyright _ _ _ _ _ Ht), Hcp.
  apply truthy_nonempty in Hs. by rewrite Hs.
Qed.

(** C5, as amended.  In a run that goes through: with [keep_orientation]
    off, the file is encoded from the transposition of the opened image and
    carries no Orientation tag; with [keep_orientation] on, the file is
    encoded from the opened image itself, and it carries the Orientation tag
    of the source when the format of the input is JPEG, TIFF or WEBP, and
    no Orientation tag for PNG and every other format. *)
Theorem orientation_policy (env : Env) (pol : Policy) (w : World)
    (path : string) (img : Image) (src : Exif) (img' : Image) (tmp : Path) :
  clean_run env pol w path img src img' tmp →
  let outname := output_name pol (PathLib.of_string path) in
  let w' := (strip_metadata env path pol w).2 in
  ∃ kw, fs w' !! outname = Some (Encoded img' kw) ∧
    (keep_orientation pol = false →
       exif_transpose img = Ok img' ∧
       ∀ t, TAG_ORIENTATION = Some t → output_tags kw !! t = None) ∧
    (keep_orientation pol = true →
       img' = img ∧
       ∀ t, TAG_ORIENTATION = Some t →
            output_tags kw !! t =
            if bool_decide (image_format img ∈ exif_formats)
            then src !! t else None).
Proof.
  intros Hrun outname w'. subst outname w'.
  destruct (strip_metadata_clean _ _ _ _ _ _ _ _ Hrun) as (_ & -> & _).
  destruct Hrun as [((_ & _ & _ & Himg) & _) _].
  eexists. split; [apply lookup_insert_eq|].
  rewrite output_tags_strip_kwargs.
  split; intros Hko; rewrite Hko in *; (split; [done|]); intros t Ht;
    case_bool_decide; rewrite ?lookup_empty; try done;
    by rewrite (build_new_exif_orientation _ _ _ _ _ Ht).
Qed.

Lemma build_new_exif_empty_string (src : Exif) (kd ko : bool) :
  build_new_exif src kd ko (Some "") = build_new_exif src kd ko None.
Proof.
  rewrite !build_new_exif_unfold. by destruct TAG_COPYRIGHT.
Qed.

Lemma strip_metadata_forced_emits (env : Env) (path : string) (pol : Policy) :
  force pol = true →
  emits (λ l, PyStr.startswith "[SKIP]" l = false)
    (strip_metadata env path pol).
Proof.
  intros Hf. unfold strip_metadata, strip_body. cbv zeta.
  repeat first
    [ apply save_atomic_emits
    | apply emits_print; reflexivity
    | progress (rewrite ?Hf; cbn [negb]; rewrite ?andb_false_r)
    | emits_step ].
Qed.

(** C10.  When reading [is_animated] raises, or when it is false or missing
    and reading [n_frames] raises, [is_multiframe] answers false, and with
    [force] off the file is processed exactly as with [force] on: no skip
    line is printed, and when its tags can be read and the calls to Pillow
    and to the system succeed, the image is encoded and written under the
    output name, and the output is announced. *)
Theorem probe_failure_is_single_frame (img : Image) (e : exn) :
  im_is_animated img = Raises e
  ∨ ((im_is_animated img = Absent ∨ im_is_animated img = Value false)
     ∧ im_n_frames img = Raises e) →
  is_multiframe img = false ∧
  ∀ env path pol w,
    e_open env = Ok img →
    strip_metadata env path (set_force pol false) w
    = strip_metadata env path (set_force pol true) w ∧
    (∃ lines,
       out (strip_metadata env path (set_force pol false) w).2
       = out w ++ lines ∧
       Forall (λ l, PyStr.startswith "[SKIP]" l = false) lines) ∧
    (force pol = false →
     ∀ src img' tmp,
       im_exif img = Ok src →
       (if keep_orientation pol then img' = img
        else exif_transpose img = Ok img') →
       e_mkdir env = None →
       let p := PathLib.of_string path in
       let outname := output_name pol p in
       Sys.fresh_name (fs w) (PathLib.parent outname) (PathLib.suffix outname)
         (e_tmp_names env) = Some tmp →
       e_save env = None →
       e_replace env = None →
       let run := strip_metadata env path pol w in
       run.1 = Ok tt ∧
       fs run.2 = <[outname := Encoded img' (strip_kwargs pol img src)]> (fs w) ∧
       trace run.2 = trace w ++ [EStrip path;
                                 EMkdir (PathLib.parent outname) true;
                                 ECreate tmp; ESave tmp true;
                                 EReplace tmp outname true] ∧
       out run.2 =
       out w
       ++ (if carries_options img then []
           else ["[WARN] Unknown/less-tested format "
                   +:+ (if PyStr.truthy (image_format img)
                        then image_format img else PathLib.suffix p)
                   +:+ "; saved without explicit metadata."])
       ++ [if inplace pol
           then "[OK] Stripped metadata IN PLACE → " +:+ PathLib.str outname
           else "[OK] Cleaned " +:+ path +:+ " → " +:+ PathLib.str outname]
       ++ match copyright_text pol with
          | Some text =>
              if PyStr.truthy text then ["[OK] Added copyright: " +:+ text]
              else []
          | None => []
          end).
Proof.
  intros Hprobe.
  assert (is_multiframe img = false) as Hmf.
  { unfold is_multiframe.
    destruct Hprobe as [-> | [[-> | ->] ->]]; reflexivity. }
  split; [done|]. intros env path pol w Hopen.
  assert (strip_metadata env path (set_force pol false) w
          = strip_metadata env path (set_force pol true) w) as Heq.
  { unfold strip_metadata, strip_body, set_force, output_name,
      exif_save_kwargs. py_unfold. simpl. rewrite Hopen. simpl.
    destruct (im_exif img); simpl; [|done]. by rewrite Hmf. }
  split; [done|]. split.
  - rewrite Heq. by apply strip_metadata_forced_emits.
  - intros Hforce src img' tmp Hexif Himg Hm p outname Hn Hs Hr run.
    subst p outname run.
    assert (clean_run env pol w path img src img' tmp) as Hrun.
    { repeat split; try done. by rewrite Hmf. }
    destruct (strip_metadata_clean _ _ _ _ _ _ _ _ Hrun) as (Hok & Hfs & Htr).
    split; [done|]. split; [done|]. split; [done|].
    apply (strip_metadata_clean_out _ _ _ _ _ _ _ _ Hrun).
Qed.

End StripRuns.

(** ** Steps that leave the files alone *)

Section Readonly.

Context {A B : Type}.

Lemma readonly_ret (a : A) : readonly (mret a : Py A).
Proof. by intros w. Qed.

Lemma readonly_lift (r : result A) : readonly (lift r).
Proof. by intros w. Qed.

Lemma readonly_bind (m : Py A) (f : A → Py B) :
  readonly m → (∀ a, readonly (f a)) → readonly (m ≫= f).
Proof.
  intros Hm Hf w. rewrite bind_run. specialize (Hm w).
  destruct (m w) as [[a|e] w1]; simpl in *; [|done].
  by rewrite Hf.
Qed.

Lemma readonly_try (m : Py A) (h : exn → Py A) :
  readonly m → (∀ e, readonly (h e)) → readonly (try_except m h).
Proof.
  intros Hm Hh w. rewrite try_run. specialize (Hm w).
  destruct (m w) as [[a|e] w1]; simpl in *; [done|].
  by rewrite Hh.
Qed.

End Readonly.

Lemma readonly_print (line : string) : readonly (print line).
Proof. by intros w. Qed.

Lemma readonly_log (ev : event) : readonly (log ev).
Proof. by intros w. Qed.

Lemma readonly_print_all (lines : list string) : readonly (print_all lines).
Proof.
  induction lines as [|l lines IH]; [apply readonly_ret|].
  apply readonly_bind; [apply readonly_print|done].
Qed.

(** One step of the proof that a program leaves the files alone. *)
Ltac readonly_step :=
  lazymatch goal with
  | |- readonly (mret _) => apply readonly_ret
  | |- readonly (lift _) => apply readonly_lift
  | |- readonly (log _) => apply readonly_log
  | |- readonly (print _) => apply readonly_print
  | |- readonly (print_all _) => apply readonly_print_all
  | |- readonly (when ?b _) => destruct b eqn:?; cbn [when]
  | |- readonly (try_except _ _) => apply readonly_try; [|intro]
  | |- readonly (_ ≫= _) => apply readonly_bind; [|intro]
  | |- readonly (match ?x with _ => _ end) => destruct x eqn:?
  end.

(** ** The batch driver *)

Arguments strip_metadata : simpl never.
Arguments scan_metadata : simpl never.

Section Batch.

Context `{Pillow}.


Lemma scan_metadata_readonly (env : Env) (path : string)
    (verbose show_gps : bool) :
  readonly (scan_metadata env path verbose show_gps).
Proof. unfold scan_metadata. repeat readonly_step. Qed.

Lemma exif_truthy_size (exif : Exif) :
  exif_truthy exif = true → bool_decide (size exif = 0%nat) = false.
Proof.
  unfold exif_truthy. intros Ht. apply negb_true_iff, bool_decide_eq_false in Ht.
  apply bool_decide_eq_false. by rewrite map_size_empty_iff.
Qed.

(** The scan that prints nothing: it answers whether the file has
    metadata. *)
Lemma scan_metadata_quiet (env : Env) (path : string) (show_gps : bool)
    (w : World) :
  scan_metadata env path false show_gps w =
  (Ok (has_metadata env), mkWorld (fs w) (out w) (trace w ++ [EScan path])).
Proof.
  unfold scan_metadata, has_metadata. py_unfold. simpl.
  destruct (e_open env) as [img|e]; simpl; [|done].
  destruct (im_exif img) as [exif|e]; simpl; [|done].
  destruct (exif_truthy exif) eqn:Et; simpl; [|done].
  by rewrite exif_truthy_size.
Qed.



Lemma save_atomic_out (env : Env) (img : Image) (outpath : Path)
    (kw : save_kwargs) (w : World) :
  out (save_atomic env img outpath kw w).2 = out w.
Proof.
  destruct (save_atomic_emits (λ _, False) env img outpath kw w)
    as (lines & -> & Hl).
  destruct lines as [|l lines]; [by rewrite app_nil_r|].
  by apply Forall_cons in Hl as [[] _].
Qed.





(** A candidate that is a directory or has no supported extension: one
    skip line, nothing else. *)
Lemma process_skip (args : Args) (os : OS) (path : string) (w : World) :
  e_is_dir (env_of os path) = Ok true
  ∨ (probed os path
     ∧ PyStr.lower (PathLib.suffix (PathLib.of_string path)) ∉ SUPPORTED_EXTS) →
  ∃ line, PyStr.startswith "[SKIP] " line = true ∧
    process args os path w = (Ok tt, add_out [line] w).
Proof.
  intros Hskip. unfold process. cbv zeta.
  destruct Hskip as [Hd|[[[|] Hd] Hext]]; rewrite Hd.
  - eexists. split; [|reflexivity]. reflexivity.
  - eexists. split; [|reflexivity]. reflexivity.
  - rewrite bind_run. simpl. rewrite bool_decide_eq_false_2 by done.
    eexists. split; [|reflexivity]. reflexivity.
Qed.

(** A supported candidate under [--scan --positives] alone. *)
Lemma process_positives (args : Args) (os : OS) (path : string) (w : World) :
  a_scan args = true → a_strip args = false → a_positives args = true →
  supported os path →
  process args os path w =
  (Ok tt,
   mkWorld (fs w)
     (out w ++ (if has_metadata (env_of os path) then [path] else []))
     (trace w ++ [EScan path])).
Proof.
  intros Hscan Hstrip Hpos [Hd Hext]. unfold process. cbv zeta.
  rewrite Hd, bind_run. simpl. rewrite bool_decide_eq_true_2 by done. simpl.
  rewrite Hscan, Hstrip, Hpos. py_unfold. simpl.
  rewrite scan_metadata_quiet.
  destruct (has_metadata (env_of os path)); simpl; [done|].
  by rewrite app_nil_r.
Qed.

Lemma run_positives (args : Args) (os : OS) (candidates : list string)
    (w : World) :
  a_scan args = true → a_strip args = false → a_positives args = true →
  Forall (supported os) candidates →
  run args os candidates w =
  (Ok tt,
   mkWorld (fs w)
     (out w ++ filter (λ path, Is_true (has_metadata (env_of os path))) candidates)
     (trace w ++ (EScan <$> candidates))).
Proof.
  intros Hscan Hstrip Hpos Hall. revert w.
  induction Hall as [|path rest Hpath Hrest IH]; intros w.
  - simpl. rewrite filter_nil, !app_nil_r. by destruct w.
  - simpl. rewrite bind_run, process_positives by done.
    rewrite IH. simpl. rewrite <- !app_assoc. repeat f_equal.
    rewrite filter_cons.
    destruct (decide _) as [Hm|Hm];
      by destruct (has_metadata (env_of os path)).
Qed.

(** C6, as amended.  Under [--scan --positives] alone, over candidates
    that are supported files, the program prints exactly the paths of the
    files whose tag mapping can be read and is not empty, one line each, in
    the order of the input, and changes no file; when there is no candidate
    at all it prints the one line that says so. *)
Theorem positives_output (args : Args) (os : OS) (w : World) :
  a_scan args = true → a_strip args = false → a_positives args = true →
  let candidates := files_from_stdin_or_args os (a_files args) in
  Forall (supported os) candidates →
  let r := main args os w in
  r.1 = Ok tt ∧
  fs r.2 = fs w ∧
  out r.2 =
  out w
  ++ filter (λ path, Is_true (has_metadata (env_of os path))) candidates
  ++ (if bool_decide (candidates = [])
      then ["[INFO] No files provided on CLI or stdin."] else []).
Proof.
  intros Hscan Hstrip Hpos candidates Hall r. subst r. unfold main.
  rewrite Hscan, Hstrip. simpl. py_unfold. simpl.
  fold candidates. rewrite run_positives by done. simpl.
  destruct (bool_decide (candidates = [])); simpl.
  - by rewrite <- app_assoc.
  - by rewrite app_nil_r.
Qed.

(** C7, as amended.  The candidates are the lines of standard input, when
    it is no terminal, each stripped of the white space around it and kept
    when something is left, followed by the positional arguments; a run
    with a mode selected processes them in this order.  A candidate that is
    a directory, or that the directory probe has answered for and whose
    extension is, in lower case, outside the supported set, gets one skip
    line and no call to [scan_metadata] or [strip_metadata], and the run
    goes on with the candidates after it. *)
Theorem candidates_and_skips (args : Args) (os : OS) :
  let candidates := files_from_stdin_or_args os (a_files args) in
  candidates =
    (if isatty os then []
     else filter (λ l, l ≠ "") (PyStr.strip <$> stdin_lines os))
    ++ a_files args ∧
  (∀ w, a_scan args || a_strip args = true → outdir_mkdir os = None →
        candidates ≠ [] →
        ∃ w0, fs w0 = fs w ∧ out w0 = out w ∧
              main args os w = run args os candidates w0) ∧
  (∀ path w,
     e_is_dir (env_of os path) = Ok true
     ∨ (probed os path
        ∧ PyStr.lower (PathLib.suffix (PathLib.of_string path))
          ∉ SUPPORTED_EXTS) →
     ∃ line, PyStr.startswith "[SKIP] " line = true ∧
       process args os path w
       = (Ok tt, mkWorld (fs w) (out w ++ [line]) (trace w)) ∧
       ∀ rest, run args os (path :: rest) w
               = run args os rest (mkWorld (fs w) (out w ++ [line]) (trace w))).
Proof.
  intros candidates. split; [|split].
  - subst candidates. unfold files_from_stdin_or_args.
    destruct (isatty os); simpl; [done|]. f_equal.
    apply list_filter_iff. intros l. by destruct l.
  - intros w Hmode Hmk Hne. unfold main. fold candidates.
    destruct (a_scan args), (a_strip args); try done; simpl.
    all: rewrite ?Hmk; rewrite bool_decide_eq_false_2 by done.
    all: try destruct (a_inplace args); simpl; py_unfold; simpl.
    all: match goal with
         | |- ∃ w0, _ ∧ _ ∧ (let (_, _) := run _ _ _ ?W in _) = _ => exists W
         end.
    all: split; [done|]; split; [done|].
    all: by destruct (run args os candidates _) as [[[]|] ?].
  - intros path w Hskip.
    destruct (process_skip args os path w Hskip) as (line & Hline & Hrun).
    exists line. split; [done|]. split; [done|].
    intros rest. simpl. by rewrite bind_run, Hrun.
Qed.


Lemma strip_metadata_empty_copyright (env : Env) (path : string)
    (pol : Policy) (w : World) :
  strip_metadata env path (set_copyright pol (Some "")) w
  = strip_metadata env path (set_copyright pol None) w.
Proof.
  unfold strip_metadata, strip_body, set_copyright, output_name,
    exif_save_kwargs. py_unfold. simpl.
  destruct (e_open env) as [img|]; simpl; [|done].
  destruct (im_exif img) as [src'|]; simpl; [|done].
  by rewrite build_new_exif_empty_string.
Qed.

Lemma process_empty_copyright (args : Args) (os : OS) (path : string)
    (w : World) :
  process (set_a_copyright args (Some "")) os path w
  = process (set_a_copyright args None) os path w.
Proof.
  unfold process. cbv zeta. simpl. rewrite !bind_run.
  destruct (e_is_dir _) as [[|]|e0]; simpl; [done| |done].
  destruct (negb _); [done|].
  rewrite !bind_run. destruct (when (a_scan args) _ w) as [[[]|e] w1]; [|done].
  destruct (a_strip args); [|done]. simpl.
  apply (strip_metadata_empty_copyright _ _ (policy_of_args args)).
Qed.

Lemma run_empty_copyright (args : Args) (os : OS) (candidates : list string)
    (w : World) :
  run (set_a_copyright args (Some "")) os candidates w
  = run (set_a_copyright args None) os candidates w.
Proof.
  revert w. induction candidates as [|path rest IH]; intros w; [done|].
  simpl. rewrite !bind_run, process_empty_copyright.
  by destruct (process _ os path w) as [[[]|e] w1].
Qed.

(** C9.  With the empty string as copyright, the replacement tag mapping
    is the one built without a copyright and holds no Copyright tag, the
    whole run of the program is the run without [--copyright], and
    [strip_metadata] prints no line that announces an added copyright. *)
Theorem empty_copyright_is_no_copyright (args : Args) (os : OS) (env : Env)
    (path : string) (pol : Policy) (w : World) (src : Exif) (kd ko : bool) :
  build_new_exif src kd ko (Some "") = build_new_exif src kd ko None ∧
  (∀ t, TAG_COPYRIGHT = Some t →
        build_new_exif src kd ko (Some "") !! t = None) ∧
  main (set_a_copyright args (Some "")) os w
  = main (set_a_copyright args None) os w ∧
  strip_metadata env path (set_copyright pol (Some "")) w
  = strip_metadata env path (set_copyright pol None) w ∧
  ∃ lines,
    out (strip_metadata env path (set_copyright pol (Some "")) w).2
    = out w ++ lines ∧
    Forall (λ l, PyStr.startswith "[OK] Added copyright" l = false) lines.
Proof.
  split; [apply build_new_exif_empty_string|]. split; [|split; [|split]].
  - intros t Ht. by rewrite (build_new_exif_copyright _ _ _ _ _ Ht).
  - unfold main. simpl. destruct (negb (a_scan args) && negb (a_strip args));
      [done|].
    rewrite !bind_run. destruct (when _ _ w) as [[[]|e] w1]; [|done].
    by rewrite !bind_run, run_empty_copyright.
  - apply strip_metadata_empty_copyright.
  - apply (emits_weaken (strip_line (set_copyright pol (Some "")))).
    + intros l Hl. destruct Hl; try reflexivity. simpl in *. by simplify_eq.
    + apply strip_metadata_emits.
Qed.

End Batch.

(** ** The properties on the small Pillow *)

Lemma supported_intro `{Pillow} (os : OS) (path : string) :
  e_is_dir (env_of os path) = Ok false →
  bool_decide (PyStr.lower (PathLib.suffix (PathLib.of_string path))
               ∈ SUPPORTED_EXTS) = true →
  supported os path.
Proof. intros Hd Hext%bool_decide_eq_true. by split. Defined.

Section Examples.

Import Demo.

(** The cleaned copy of the photograph, stripped with a copyright. *)
Lemma copyright_written_witness :
  let pol := set_copyright pol0 (Some "me") in
  let w' := (strip_metadata (env_ok (photo "JPEG")) "pics/a.jpg" pol world1).2 in
  ∃ c, fs w' !! PathLib.of_string "out/a_clean.jpg" = Some c ∧
       file_tags c !! 33432 = Some (VStr "me").
Proof.
  intros pol w'.
  eapply (copyright_written (env_ok (photo "JPEG")) pol world1 "pics/a.jpg"
            (photo "JPEG") photo_exif _ (PathLib.of_string "out/tmpabcd1234.jpg")
            "me" 33432).
  - repeat split; reflexivity.
  - reflexivity.
  - discriminate.
  - reflexivity.
Defined.

(** C3, as stated, fails on a PNG: the run goes through, announces the
    copyright, and the written file carries no Copyright tag. *)
Lemma png_gets_no_copyright :
  let pol := set_copyright pol0 (Some "me") in
  let w' := (strip_metadata (env_ok (photo "PNG")) "pics/a.png" pol world1).2 in
  @TAG_COPYRIGHT pillow = Some 33432 ∧
  "[OK] Added copyright: me" ∈ out w' ∧
  ∃ c, fs w' !! PathLib.of_string "out/a_clean.png" = Some c ∧
       file_tags c !! 33432 ≠ Some (VStr "me").
Proof.
  intros pol w'. split; [reflexivity|]. split.
  - vm_compute. apply list_elem_of_In. right. left. reflexivity.
  - eexists. split; [vm_compute; reflexivity|]. vm_compute. discriminate.
Qed.



(** The photograph, turned upside down by its Orientation tag, stripped with
    the default policy: the pixels are turned back and the tag is gone. *)
Lemma orientation_policy_witness :
  let w' := (strip_metadata (env_ok (photo "JPEG")) "pics/a.jpg" pol0 world1).2 in
  ∃ img' kw,
    fs w' !! PathLib.of_string "out/a_clean.jpg" = Some (Encoded img' kw) ∧
    im_pixels img' = [[4; 3]; [2; 1]] ∧
    output_tags kw !! 274 = None.
Proof.
  intros w'.
  destruct (orientation_policy (env_ok (photo "JPEG")) pol0 world1 "pics/a.jpg"
              (photo "JPEG") photo_exif
              (mkImage None (Ok (delete 274 photo_exif)) {[ 1 := VStr "N" ]}
                 (Some "icc") (Some (72, 72)) Absent Absent [[4; 3]; [2; 1]])
              (PathLib.of_string "out/tmpabcd1234.jpg"))
    as (kw & Hfile & Hoff & _).
  { repeat split; reflexivity. }
  destruct (Hoff eq_refl) as [_ Htag].
  eexists _, kw. split; [exact Hfile|]. split; [reflexivity|].
  apply Htag. reflexivity.
Defined.

(** C5, as stated, fails on a PNG with [--keep-orientation]: the pixels are
    saved as they are and the Orientation tag of the source is not in the
    written file. *)
Lemma png_loses_orientation :
  let w' := (strip_metadata (env_ok (photo "PNG")) "pics/a.png" pol_keep world1).2 in
  @TAG_ORIENTATION pillow = Some 274 ∧
  photo_exif !! 274 = Some (VInt 3) ∧
  ∃ c, fs w' !! PathLib.of_string "out/a_clean.png" = Some c ∧
       file_pixels c = Some (im_pixels (photo "PNG")) ∧
       file_tags c !! 274 ≠ Some (VInt 3).
Proof.
  intros w'. split; [reflexivity|]. split; [reflexivity|].
  eexists. split; [vm_compute; reflexivity|].
  split; [reflexivity|]. vm_compute. discriminate.
Qed.

(** The photograph among the files given on the command line. *)
Lemma positives_output_witness :
  let args := args_positives ["pics/a.jpg"; "pics/b.png"] in
  Forall (supported os_args) (files_from_stdin_or_args os_args (a_files args)) ∧
  out (main args os_args world0).2 = ["pics/a.jpg"].
Proof.
  intros args.
  assert (Forall (supported os_args)
            (files_from_stdin_or_args os_args (a_files args))) as Hall.
  { repeat apply Forall_cons_2; [| |apply Forall_nil_2];
      apply supported_intro; reflexivity. }
  split; [exact Hall|].
  destruct (positives_output args os_args world0 eq_refl eq_refl eq_refl Hall)
    as (_ & _ & Hout).
  rewrite Hout. reflexivity.
Defined.

(** C6, as stated, fails on the empty sequence of files: the output is not
    the empty list of paths but one line of information. *)
Lemma positives_output_no_files :
  files_from_stdin_or_args os_args (a_files (args_positives [])) = [] ∧
  out (main (args_positives []) os_args world0).2
  = ["[INFO] No files provided on CLI or stdin."].
Proof. split; reflexivity. Qed.

(** A directory among the candidates. *)
Lemma candidates_and_skips_witness :
  let args := args_positives ["pics"; "pics/a.jpg"] in
  e_is_dir (env_of os_args "pics") = Ok true ∧
  (process args os_args "pics" world0).1 = Ok tt ∧
  trace (process args os_args "pics" world0).2 = [] ∧
  run args os_args ["pics"; "pics/a.jpg"] world0
  = run args os_args ["pics/a.jpg"] (process args os_args "pics" world0).2.
Proof.
  intros args.
  destruct (candidates_and_skips args os_args) as (_ & _ & Hskip).
  destruct (Hskip "pics" world0 (or_introl eq_refl)) as (line & _ & Hp & Hrun).
  split; [reflexivity|]. rewrite Hp.
  split; [reflexivity|]. split; [reflexivity|]. apply Hrun.
Defined.

(** C7, as stated, fails on lines with white space: the line of spaces is
    not a candidate, and the path is taken without the spaces around it. *)
Lemma candidates_are_stripped :
  spec_candidates os_piped [] = ["   "; " pics/a.jpg "] ∧
  files_from_stdin_or_args os_piped [] = ["pics/a.jpg"] ∧
  files_from_stdin_or_args os_piped [] ≠ spec_candidates os_piped [].
Proof. split; [reflexivity|]. split; [reflexivity|]. discriminate. Qed.



(** The empty copyright on the photograph. *)
Lemma empty_copyright_is_no_copyright_witness :
  build_new_exif photo_exif true true (Some "") !! 33432 = None ∧
  strip_metadata (env_ok (photo "JPEG")) "pics/a.jpg"
    (set_copyright pol0 (Some "")) world1
  = strip_metadata (env_ok (photo "JPEG")) "pics/a.jpg"
      (set_copyright pol0 None) world1.
Proof.
  destruct (empty_copyright_is_no_copyright args0 os_args
              (env_ok (photo "JPEG")) "pics/a.jpg" pol0 world1 photo_exif
              true true)
    as (_ & Htag & _ & Hrun & _).
  split; [apply Htag; reflexivity|exact Hrun].
Defined.

(** The animation whose frames cannot be counted, without [--force]: it is
    written as a single frame. *)
Lemma probe_failure_is_single_frame_witness :
  im_is_animated flaky = Raises (Exception "truncated file") ∧
  is_multiframe flaky = false ∧
  strip_metadata (env_ok flaky) "pics/f.webp" (set_force pol0 false) world1
  = strip_metadata (env_ok flaky) "pics/f.webp" (set_force pol0 true) world1 ∧
  file_pixels <$> fs (strip_metadata (env_ok flaky) "pics/f.webp" pol0
                        world1).2 !! PathLib.of_string "out/f_clean.webp"
  = Some (Some [[7]]) ∧
  out (strip_metadata (env_ok flaky) "pics/f.webp" pol0 world1).2
  = ["[OK] Cleaned pics/f.webp → out/f_clean.webp"].
Proof.
  destruct (probe_failure_is_single_frame flaky (Exception "truncated file")
              (or_introl eq_refl)) as [Hmf Hrun].
  split; [reflexivity|]. split; [exact Hmf|].
  destruct (Hrun (env_ok flaky) "pics/f.webp" pol0 world1 eq_refl)
    as (Heq & _ & Hwritten).
  split; [exact Heq|].
  destruct (Hwritten eq_refl ∅
              (mkImage (Some "WEBP") (Ok ∅) ∅ None None Absent Absent [[7]])
              (PathLib.of_string "out/tmpabcd1234.webp")
              eq_refl eq_refl eq_refl eq_refl eq_refl eq_refl)
    as (_ & Hfs & _ & Hout).
  split; [rewrite Hfs; reflexivity|]. rewrite Hout. reflexivity.
Defined.

End Examples.

(** * Further properties of the code *)

Section RegistryMore.

Context `{Pillow}.

Lemma reverse_lookup_complete (k : Z) (n : string) :
  TAGS !! k = Some n → is_Some (EXIF_TAGS_REVERSE !! n).
Proof.
  unfold EXIF_TAGS_REVERSE. revert k n.
  apply (map_fold_weak_ind
           (λ (r : gmap string Z) (m : gmap Z string),
              ∀ k n, m !! k = Some n → is_Some (r !! n))).
  - intros k n Hl. by rewrite lookup_empty in Hl.
  - intros i x m r Hfresh IH k n Hl.
    destruct (decide (x = n)) as [->|Hne].
    + rewrite lookup_insert_eq. by eexists.
    + rewrite lookup_insert_ne by done.
      destruct (decide (i = k)) as [->|Hik].
      * rewrite lookup_insert_eq in Hl. congruence.
      * rewrite lookup_insert_ne in Hl by done. by eapply IH.
Qed.

(** The reversed registry and the registry agree: an id found under a name
    carries that name, every name of the registry is found, a name carried
    by one id only is mapped to that id, and so the ids of DateTimeOriginal,
    Orientation and Copyright are pairwise different. *)
Theorem registry_round_trip :
  (∀ n k, EXIF_TAGS_REVERSE !! n = Some k → TAGS !! k = Some n) ∧
  (∀ k n, TAGS !! k = Some n →
          ∃ k', EXIF_TAGS_REVERSE !! n = Some k' ∧ TAGS !! k' = Some n) ∧
  (∀ k n, TAGS !! k = Some n → (∀ k', TAGS !! k' = Some n → k' = k) →
          EXIF_TAGS_REVERSE !! n = Some k) ∧
  (∀ a b c, TAG_DATETIME_ORIGINAL = Some a → TAG_ORIENTATION = Some b →
            TAG_COPYRIGHT = Some c → a ≠ b ∧ a ≠ c ∧ b ≠ c).
Proof.
  split; [apply reverse_lookup_sound|]. split; [|split].
  - intros k n Hk. destruct (reverse_lookup_complete k n Hk) as [k' Hk'].
    exists k'. split; [done|]. by apply reverse_lookup_sound.
  - intros k n Hk Huniq.
    destruct (reverse_lookup_complete k n Hk) as [k' Hk'].
    rewrite Hk'. f_equal. apply Huniq. by apply reverse_lookup_sound.
  - intros a b c Ha Hb Hc. split; [|split].
    + by eapply date_not_orientation.
    + by eapply date_not_copyright.
    + by eapply orientation_not_copyright.
Qed.

(** Nothing is made up: a tag of the replacement mapping other than the
    copyright is a tag of the source with the same value.  With no keep
    flag, and also from a source without tags, the mapping holds the
    copyright alone, when one that is not empty is given, and is empty
    otherwise. *)
Theorem build_new_exif_minimal (src : Exif) (kd ko : bool)
    (cp : option string) :
  (∀ t v, build_new_exif src kd ko cp !! t = Some v →
          TAG_COPYRIGHT ≠ Some t → src !! t = Some v) ∧
  ((kd = false ∧ ko = false) ∨ src = ∅ →
   build_new_exif src kd ko cp =
   match cp, TAG_COPYRIGHT with
   | Some s, Some t => if PyStr.truthy s then {[ t := VStr s ]} else ∅
   | _, _ => ∅
   end).
Proof.
  split.
  - intros t v Hl Hne. rewrite build_new_exif_other in Hl by done.
    by apply kept_tags_lookup in Hl as [? _].
  - intros Hcase. rewrite build_new_exif_unfold.
    assert (kept_tags src kd ko = ∅) as ->.
    { unfold kept_tags. destruct Hcase as [[-> ->]| ->]; [done|].
      destruct kd, ko; by rewrite ?copy_tag_empty. }
    by destruct cp as [s|], TAG_COPYRIGHT as [t|].
Qed.

(** [is_multiframe] answers true exactly when the handle says it is
    animated, or does not say so and counts more than one frame: a handle
    without the two attributes, or with one frame, is single-frame. *)
Theorem is_multiframe_iff (img : Image) :
  is_multiframe img = true ↔ reports_multiframe img.
Proof.
  unfold is_multiframe, reports_multiframe.
  destruct (im_is_animated img) as [|[|]|e];
    destruct (im_n_frames img) as [|n|e']; simpl;
    rewrite ?Z.ltb_lt; first [naive_solver | split; [lia|naive_solver]].
Qed.

End RegistryMore.

(** ** Strings and paths *)

Lemma str_app_cons (c : ascii) (s t : string) :
  String c s +:+ t = String c (s +:+ t).
Proof. reflexivity. Qed.

Lemma str_app_empty_r (s : string) : s +:+ "" = s.
Proof. induction s as [|c s IH]; [done|]. by rewrite str_app_cons, IH. Qed.

Lemma str_length_app (s t : string) :
  String.length (s +:+ t) = (String.length s + String.length t)%nat.
Proof. induction s as [|c s IH]; [done|]. rewrite str_app_cons. simpl. by rewrite IH. Qed.

Lemma str_take_drop (i : nat) (s : string) : PyStr.take i s +:+ PyStr.drop i s = s.
Proof.
  revert s. induction i as [|i IH]; intros [|c s]; simpl; try done.
  by rewrite str_app_cons, IH.
Qed.

Lemma str_length_take (i : nat) (s : string) :
  (i ≤ String.length s)%nat → String.length (PyStr.take i s) = i.
Proof.
  revert s. induction i as [|i IH]; intros [|c s]; simpl; try done; [lia|].
  intros Hi. rewrite IH; lia.
Qed.

Lemma str_drop_app_length (a b : string) (k : nat) :
  PyStr.drop (String.length a + k) (a +:+ b) = PyStr.drop k b.
Proof. induction a as [|c a IH]; [done|]. by rewrite str_app_cons. Qed.

Lemma has_char_app (c : ascii) (s t : string) :
  has_char c (s +:+ t) = has_char c s || has_char c t.
Proof.
  induction s as [|d s IH]; [done|]. rewrite str_app_cons. simpl.
  by rewrite IH, orb_assoc.
Qed.

Lemma has_char_take (c : ascii) (i : nat) (s : string) :
  has_char c s = false → has_char c (PyStr.take i s) = false.
Proof.
  revert s. induction i as [|i IH]; intros [|d s]; simpl; try done.
  intros [? ?]%orb_false_iff. apply orb_false_iff. auto.
Qed.

Lemma has_char_drop (c : ascii) (i : nat) (s : string) :
  has_char c s = false → has_char c (PyStr.drop i s) = false.
Proof.
  revert s. induction i as [|i IH]; intros [|d s]; simpl; try done.
  intros [? ?]%orb_false_iff. auto.
Qed.

(** The pieces [split] cuts a string into do not hold the separator. *)
Lemma split_pieces (sep : ascii) (s : string) :
  Forall (λ x, has_char sep x = false) (PyStr.split sep s).
Proof.
  induction s as [|c s IH]; simpl; [by repeat constructor|].
  destruct (decide (c = sep)) as [->|Hne]; [by constructor|].
  destruct (PyStr.split sep s) as [|x xs].
  - repeat constructor. simpl. by rewrite bool_decide_eq_false_2.
  - apply Forall_cons in IH as [Hx Hxs]. constructor; [|done].
    simpl. by rewrite bool_decide_eq_false_2.
Qed.

(** A string without the separator is one piece. *)
Lemma split_one (sep : ascii) (s : string) :
  has_char sep s = false → PyStr.split sep s = [s].
Proof.
  induction s as [|c s IH]; [done|]. simpl.
  intros [Hc Hs]%orb_false_iff. apply bool_decide_eq_false in Hc.
  rewrite decide_False by done. by rewrite IH.
Qed.

Lemma rfind_lt (c : ascii) (s : string) (i : nat) :
  PyStr.rfind c s = Some i → (i < String.length s)%nat.
Proof.
  revert i. induction s as [|d s IH]; [done|]. simpl. intros i.
  destruct (PyStr.rfind c s) as [j|].
  - intros [= <-]. specialize (IH j eq_refl). lia.
  - destruct (decide (d = c)); [|done]. intros [= <-]. lia.
Qed.

Lemma rfind_app (c : ascii) (a b : string) :
  PyStr.rfind c (a +:+ b) =
  match PyStr.rfind c b with
  | Some j => Some (String.length a + j)%nat
  | None => PyStr.rfind c a
  end.
Proof.
  induction a as [|d a IH].
  { change ("" +:+ b) with b. by destruct (PyStr.rfind c b). }
  rewrite str_app_cons. simpl. rewrite IH.
  by destruct (PyStr.rfind c b).
Qed.

(** From the last occurrence on, the character is found at the front. *)
Lemma rfind_drop (c : ascii) (s : string) (i : nat) :
  PyStr.rfind c s = Some i → PyStr.rfind c (PyStr.drop i s) = Some 0%nat.
Proof.
  revert i. induction s as [|d s IH]; [done|]. simpl. intros i.
  destruct (PyStr.rfind c s) as [j|] eqn:E.
  - intros [= <-]. simpl. by apply IH.
  - destruct (decide (d = c)) as [->|]; [|done]. intros [= <-]. simpl.
    by rewrite E, decide_True.
Qed.

Lemma stem_suffix (p : Path) :
  PathLib.stem p +:+ PathLib.suffix p = PathLib.name p.
Proof.
  unfold PathLib.stem, PathLib.suffix.
  destruct (PyStr.rfind "." (PathLib.name p)) as [i|]; [|apply str_app_empty_r].
  destruct (_ && _); [apply str_take_drop|apply str_app_empty_r].
Qed.

(** The components of a path made from a string hold no slash. *)
Lemma of_string_parts (s : string) :
  Forall (λ x, has_char "/" x = false) (parts (PathLib.of_string s)).
Proof.
  unfold PathLib.of_string. simpl. apply Forall_forall. intros x Hx.
  apply list_elem_of_filter in Hx as [_ Hx].
  by apply (proj1 (Forall_forall _ _) (split_pieces "/" s)).
Qed.

Lemma name_no_slash (s : string) :
  has_char "/" (PathLib.name (PathLib.of_string s)) = false.
Proof.
  unfold PathLib.name. pose proof (of_string_parts s) as Hall.
  induction Hall as [|x [|y l] Hx Hl IH]; simpl in *; done.
Qed.

(** A string without slash, not empty and not a dot, is the path of one
    component. *)
Lemma of_string_one (s : string) :
  has_char "/" s = false → s ≠ "" → s ≠ "." →
  PathLib.of_string s = mkPath "" [s].
Proof.
  intros Hs Hne Hdot. unfold PathLib.of_string. f_equal.
  - unfold PathLib.root_of, PyStr.startswith.
    destruct s as [|c s]; [done|]. simpl in Hs.
    apply orb_false_iff in Hs as [Hc _]. apply bool_decide_eq_false in Hc.
    cbn [String.prefix].
    destruct (ascii_dec "/" c) as [E|_]; [by destruct Hc|done].
  - rewrite split_one by done. rewrite filter_cons_True; [done|].
    unfold PathLib.keep_part. apply String.eqb_neq in Hdot. rewrite Hdot.
    by destruct s.
Qed.

(** The name the cleaned file gets. *)
Lemma clean_name_one (path : string) :
  let p := PathLib.of_string path in
  let s := PathLib.stem p +:+ "_clean" +:+ PathLib.suffix p in
  PathLib.of_string s = mkPath "" [s].
Proof.
  intros p s. subst s. apply of_string_one.
  - rewrite !has_char_app. pose proof (name_no_slash path) as Hn. fold p in Hn.
    unfold PathLib.stem, PathLib.suffix.
    destruct (PyStr.rfind "." (PathLib.name p)) as [i|]; [|by rewrite Hn].
    destruct (_ && _); [|by rewrite Hn].
    by rewrite has_char_take, has_char_drop.
  - intros E. apply (f_equal String.length) in E.
    rewrite !str_length_app in E. simpl in E. lia.
  - intros E. apply (f_equal String.length) in E.
    rewrite !str_length_app in E. simpl in E. lia.
Qed.

Section OutputName.

Context `{Pillow}.

Lemma output_name_child (pol : Policy) (path : string) :
  inplace pol = false →
  let p := PathLib.of_string path in
  output_name pol p =
  PathLib.child (output_dir pol p)
    (PathLib.stem p +:+ "_clean" +:+ PathLib.suffix p).
Proof.
  intros Hin p. unfold output_name, output_dir, PathLib.joinpath.
  rewrite Hin. subst p. rewrite clean_name_one. simpl.
  by destruct (outdir pol) as [d|]; [destruct (PyStr.truthy d)|].
Qed.

Lemma name_child (d : Path) (n : string) :
  PathLib.name (PathLib.child d n) = n.
Proof. unfold PathLib.name, PathLib.child. simpl. apply last_last. Qed.

(** Without [inplace] the output is never the input. *)
Lemma output_name_differs (pol : Policy) (path : string) :
  inplace pol = false →
  output_name pol (PathLib.of_string path) ≠ PathLib.of_string path.
Proof.
  intros Hin E. apply (f_equal PathLib.name) in E.
  rewrite output_name_child, name_child, <- stem_suffix in E by done.
  apply (f_equal String.length) in E. rewrite !str_length_app in E.
  simpl in E. lia.
Qed.

(** The suffix of the cleaned file's name, for a name with a suffix. *)
Lemma clean_name_suffix (d p : Path) :
  PathLib.suffix p ≠ "" →
  PathLib.suffix
    (PathLib.child d (PathLib.stem p +:+ "_clean" +:+ PathLib.suffix p))
  = PathLib.suffix p.
Proof.
  intros Hs.
  assert (∃ i, PyStr.rfind "." (PathLib.name p) = Some i
               ∧ (0 < i)%nat ∧ (i < String.length (PathLib.name p) - 1)%nat
               ∧ PathLib.stem p = PyStr.take i (PathLib.name p)
               ∧ PathLib.suffix p = PyStr.drop i (PathLib.name p))
    as (i & Hi & H0 & H1 & -> & ->).
  { unfold PathLib.suffix, PathLib.stem in *.
    destruct (PyStr.rfind "." (PathLib.name p)) as [i|]; [|done].
    destruct (_ && _) eqn:Hc; [|done].
    apply andb_true_iff in Hc as [H0 H1]. apply Nat.ltb_lt in H0, H1.
    by exists i. }
  unfold PathLib.suffix. rewrite name_child.
  pose proof (rfind_lt _ _ _ Hi) as Hlt.
  rewrite rfind_app, rfind_app, (rfind_drop _ _ _ Hi).
  rewrite str_length_take by lia. simpl String.length.
  rewrite !str_length_app. rewrite str_length_take by lia. simpl String.length.
  assert (String.length (PyStr.drop i (PathLib.name p))
          = (String.length (PathLib.name p) - i)%nat) as Hd.
  { pose proof (f_equal String.length (str_take_drop i (PathLib.name p))) as E.
    rewrite str_length_app, str_length_take in E by lia. lia. }
  rewrite Hd.
  replace ((0 <? i + (6 + 0))%nat
           && (i + (6 + 0) <? i + (6 + (String.length (PathLib.name p) - i)) - 1)%nat)
    with true.
  - replace (i + (6 + 0))%nat
      with (String.length (PyStr.take i (PathLib.name p)) + 6)%nat
      by (rewrite str_length_take; lia).
    rewrite str_drop_app_length.
    by replace 6%nat with (String.length "_clean" + 0)%nat by done;
      rewrite str_drop_app_length.
  - symmetry. apply andb_true_iff. split; apply Nat.ltb_lt; lia.
Qed.

(** Where the cleaned file goes.  In place, it is the input.  Otherwise it
    lies in the output directory, or beside the input when no directory is
    given, under the stem of the input followed by [_clean] and the suffix
    of the input; it is never the input itself, and it keeps the suffix of
    an input that has one. *)
Theorem output_name_spec (pol : Policy) (path : string) :
  let p := PathLib.of_string path in
  let o := output_name pol p in
  (inplace pol = true → o = p) ∧
  (inplace pol = false →
     PathLib.parent o = output_dir pol p ∧
     PathLib.name o = PathLib.stem p +:+ "_clean" +:+ PathLib.suffix p ∧
     o ≠ p ∧
     (PathLib.suffix p ≠ "" → PathLib.suffix o = PathLib.suffix p)).
Proof.
  intros p o. subst p o. split.
  - intros Hin. unfold output_name. by rewrite Hin.
  - intros Hin. rewrite output_name_child by done.
    split; [apply parent_child|]. split; [apply name_child|].
    split; [|apply clean_name_suffix].
    rewrite <- (output_name_child pol path Hin).
    by apply output_name_differs.
Qed.

End OutputName.


(** ** More on the atomic writer *)

Lemma save_atomic_no_dir (env : Env) (img : Image) (outpath : Path)
    (kw : save_kwargs) (w : World) (e : exn) :
  e_mkdir env = Some e →
  save_atomic env img outpath kw w =
  (Err e,
   mkWorld (fs w) (out w) (trace w ++ [EMkdir (PathLib.parent outpath) false])).
Proof.
  intros Hm. unfold save_atomic, Sys.mkdir. py_unfold. by rewrite Hm.
Qed.

Lemma save_atomic_no_name (env : Env) (img : Image) (outpath : Path)
    (kw : save_kwargs) (w : World) :
  e_mkdir env = None →
  Sys.fresh_name (fs w) (PathLib.parent outpath) (PathLib.suffix outpath)
    (e_tmp_names env) = None →
  save_atomic env img outpath kw w =
  (Err (Exception "No usable temporary file name found"),
   mkWorld (fs w) (out w) (trace w ++ [EMkdir (PathLib.parent outpath) true])).
Proof.
  intros Hm Hn. unfold save_atomic, Sys.mkdir, Sys.NamedTemporaryFile.
  py_unfold. rewrite Hm. simpl. by rewrite Hn.
Qed.

(** The three ways a run of [save_atomic] ends: with an error and the files
    as they were, with an error and the temporary file left behind, or
    with the destination written. *)
Lemma save_atomic_shape (env : Env) (img : Image) (outpath : Path)
    (kw : save_kwargs) (w : World) :
  let r := save_atomic env img outpath kw w in
  (∃ e, r.1 = Err e ∧ fs r.2 = fs w)
  ∨ (∃ tmp e c, fs w !! tmp = None ∧ r.1 = Err e ∧ fs r.2 = <[tmp := c]> (fs w))
  ∨ (r.1 = Ok tt ∧ fs r.2 = <[outpath := Encoded img kw]> (fs w)).
Proof.
  intros r. subst r.
  destruct (e_mkdir env) as [e|] eqn:Hm.
  { left. exists e. by rewrite (save_atomic_no_dir _ _ _ _ _ e). }
  destruct (Sys.fresh_name (fs w) (PathLib.parent outpath)
              (PathLib.suffix outpath) (e_tmp_names env)) as [tmp|] eqn:Hn.
  2: { left. eexists. by rewrite save_atomic_no_name. }
  pose proof (fresh_name_spec _ _ _ _ _ Hn) as [Hf _].
  assert (∀ e, e_save env = Some e ∨ (e_save env = None ∧ e_replace env = Some e) →
    (∃ e, (save_atomic env img outpath kw w).1 = Err e
          ∧ fs (save_atomic env img outpath kw w).2 = fs w)
    ∨ (∃ tmp e c, fs w !! tmp = None
          ∧ (save_atomic env img outpath kw w).1 = Err e
          ∧ fs (save_atomic env img outpath kw w).2 = <[tmp := c]> (fs w))) as Hfail.
  { intros e He.
    destruct (save_atomic_failure env img outpath kw w tmp e Hm Hn He)
      as (c & ev & -> & _). simpl.
    destruct (e_unlink env); [right|left]; eauto 6. }
  destruct (e_save env) as [e|] eqn:Hs.
  { destruct (Hfail e) as [?|?]; auto. }
  destruct (e_replace env) as [e|] eqn:Hr.
  { destruct (Hfail e) as [?|?]; auto. }
  right. right. by rewrite (save_atomic_success env img outpath kw w tmp).
Qed.

Lemma save_atomic_preserves (env : Env) (img : Image) (outpath : Path)
    (kw : save_kwargs) (q : Path) :
  q ≠ outpath → preserves q (save_atomic env img outpath kw).
Proof.
  intros Hne w c Hq.
  destruct (save_atomic_shape env img outpath kw w)
    as [(e & _ & ->)|[(tmp & e & c' & Hf & _ & ->)|[_ ->]]]; [done| |].
  - rewrite lookup_insert_ne; [done|]. intros ->. congruence.
  - by rewrite lookup_insert_ne.
Qed.

(** When the directory cannot be made, or when every temporary name is
    taken, [save_atomic] raises, no file is created or changed, and
    nothing is encoded. *)
Theorem save_atomic_fails_early (env : Env) (img : Image) (outpath : Path)
    (kw : save_kwargs) (w : World) :
  let dir := PathLib.parent outpath in
  (∀ e, e_mkdir env = Some e →
        save_atomic env img outpath kw w
        = (Err e, mkWorld (fs w) (out w) (trace w ++ [EMkdir dir false]))) ∧
  (e_mkdir env = None →
   Sys.fresh_name (fs w) dir (PathLib.suffix outpath) (e_tmp_names env) = None →
   save_atomic env img outpath kw w
   = (Err (Exception "No usable temporary file name found"),
      mkWorld (fs w) (out w) (trace w ++ [EMkdir dir true]))).
Proof.
  split.
  - intros e. apply save_atomic_no_dir.
  - apply save_atomic_no_name.
Qed.

(** Whatever fails, [save_atomic] neither changes nor removes a file that
    exists and is not the destination. *)
Theorem save_atomic_frame (env : Env) (img : Image) (outpath : Path)
    (kw : save_kwargs) (w : World) (q : Path) (c : content) :
  q ≠ outpath →
  fs w !! q = Some c →
  fs (save_atomic env img outpath kw w).2 !! q = Some c.
Proof. intros Hne. by apply save_atomic_preserves. Qed.

(** Whatever fails, a destination that exists is never left half written:
    after [save_atomic] it holds the complete encoding, and the call
    returned, or what it held before, and the call raised. *)
Theorem existing_destination_is_never_truncated (env : Env) (img : Image)
    (outpath : Path) (kw : save_kwargs) (w : World) (c : content) :
  fs w !! outpath = Some c →
  let r := save_atomic env img outpath kw w in
  (r.1 = Ok tt ∧ fs r.2 !! outpath = Some (Encoded img kw))
  ∨ (∃ e, r.1 = Err e ∧ fs r.2 !! outpath = Some c).
Proof.
  intros Hc r. subst r.
  destruct (save_atomic_shape env img outpath kw w)
    as [(e & He & Hfs)|[(tmp & e & c' & Hf & He & Hfs)|[Hok Hfs]]];
    rewrite Hfs.
  - right. exists e. by rewrite He.
  - right. exists e. rewrite He. split; [done|].
    rewrite lookup_insert_ne; [done|]. intros ->. congruence.
  - left. by rewrite Hok, lookup_insert_eq.
Qed.

(** ** Steps that keep a file *)

Section Preserves.

Context {A B : Type} (q : Path).

Lemma preserves_ret (a : A) : preserves q (mret a : Py A).
Proof. by intros w c. Qed.

Lemma preserves_lift (r : result A) : preserves q (lift r).
Proof. by intros w c. Qed.

Lemma preserves_bind (m : Py A) (f : A → Py B) :
  preserves q m → (∀ a, preserves q (f a)) → preserves q (m ≫= f).
Proof.
  intros Hm Hf w c Hq. rewrite bind_run. specialize (Hm w c Hq).
  destruct (m w) as [[a|e] w1]; simpl in *; [|done].
  by apply Hf.
Qed.

Lemma preserves_try (m : Py A) (h : exn → Py A) :
  preserves q m → (∀ e, preserves q (h e)) → preserves q (try_except m h).
Proof.
  intros Hm Hh w c Hq. rewrite try_run. specialize (Hm w c Hq).
  destruct (m w) as [[a|e] w1]; simpl in *; [done|].
  by apply Hh.
Qed.

End Preserves.

Lemma preserves_print (q : Path) (line : string) : preserves q (print line).
Proof. by intros w c. Qed.

Lemma preserves_log (q : Path) (ev : event) : preserves q (log ev).
Proof. by intros w c. Qed.

(** One step of the proof that a program keeps a file. *)
Ltac preserves_step :=
  lazymatch goal with
  | |- preserves _ (mret _) => apply preserves_ret
  | |- preserves _ (lift _) => apply preserves_lift
  | |- preserves _ (log _) => apply preserves_log
  | |- preserves _ (print _) => apply preserves_print
  | |- preserves _ (when ?b _) => destruct b eqn:?; cbn [when]
  | |- preserves _ (try_except _ _) => apply preserves_try; [|intro]
  | |- preserves _ (_ ≫= _) => apply preserves_bind; [|intro]
  | |- preserves _ (match ?x with _ => _ end) => destruct x eqn:?
  end.

Section StripMore.

Context `{Pillow}.

Lemma strip_metadata_preserves (env : Env) (path : string) (pol : Policy)
    (q : Path) :
  q ≠ output_name pol (PathLib.of_string path) →
  preserves q (strip_metadata env path pol).
Proof.
  intros Hne. unfold strip_metadata, strip_body. cbv zeta.
  repeat first
    [ by apply save_atomic_preserves
    | preserves_step ].
Qed.

(** Whatever fails, stripping a file that exists without [inplace] leaves
    that file as it is. *)
Theorem strip_keeps_the_input (env : Env) (path : string) (pol : Policy)
    (w : World) (c : content) :
  inplace pol = false →
  fs w !! PathLib.of_string path = Some c →
  fs (strip_metadata env path pol w).2 !! PathLib.of_string path = Some c.
Proof.
  intros Hin. apply strip_metadata_preserves.
  intros E. by apply (output_name_differs pol path Hin).
Qed.

(** How a run of [strip_metadata] ends: with the output written and
    announced, or with one skip or error line and no file written, a
    temporary file at most being left behind. *)
Lemma strip_metadata_outcome (env : Env) (path : string) (pol : Policy)
    (w : World) :
  let outname := output_name pol (PathLib.of_string path) in
  let r := strip_metadata env path pol w in
  r.1 = Ok tt ∧
  ((∃ img kw lines,
      fs r.2 = <[outname := Encoded img kw]> (fs w) ∧
      out r.2 = out w ++ lines ∧
      ∃ l, l ∈ lines ∧ PyStr.startswith "[OK] " l = true)
   ∨ (∃ line,
        out r.2 = out w ++ [line] ∧
        PyStr.startswith "[SKIP] " line || PyStr.startswith "[ERROR] " line
        = true ∧
        (fs r.2 = fs w
         ∨ ∃ tmp c, fs w !! tmp = None ∧ fs r.2 = <[tmp := c]> (fs w)))).
Proof.
  intros outname r. subst outname r.
  unfold strip_metadata, strip_body. py_unfold. simpl.
  destruct (e_open env) as [img|e]; simpl.
  2: { split; [done|]. right. eexists. split; [done|]. split; [done|]. by left. }
  destruct (im_exif img) as [src|e]; simpl.
  2: { split; [done|]. right. eexists. split; [done|]. split; [done|]. by left. }
  destruct (is_multiframe img && negb (force pol)); simpl.
  { split; [done|]. right. eexists. split; [done|]. split; [done|]. by left. }
  destruct (keep_orientation pol); simpl;
    [|destruct (exif_transpose img) as [img'|e]; simpl].
  3: { split; [done|]. right. eexists. split; [done|]. split; [done|]. by left. }
  all: destruct (bool_decide (_ ∈ _)); [|destruct (String.eqb _ _)]; simpl.
  all: match goal with
       | |- context [save_atomic ?e ?i ?o ?k ?W] =>
           pose proof (save_atomic_shape e i o k W) as Hshape;
           pose proof (save_atomic_out e i o k W) as Hout;
           destruct (save_atomic e i o k W) as [[[]|e'] w1] eqn:Hs
       end; simpl in *.
  all: destruct Hshape
         as [(e1 & He1 & Hfs)|[(tmp & e1 & c & Hf & He1 & Hfs)|[Hok Hfs]]];
       try discriminate.
  all: try (split; [done|]; right; eexists;
            rewrite Hout; split; [done|]; split; [done|];
            rewrite Hfs; by eauto).
  all: destruct (inplace pol), (copyright_text pol) as [text|]; simpl;
       try destruct (PyStr.truthy text); simpl; rewrite ?Hout, Hfs.
  all: split; [done|]; left; eexists _, _, _; split; [done|];
       rewrite <- ?app_assoc; (split; [done|]).
  all: simpl app;
       first
         [ by (eexists; split; [apply list_elem_of_here|reflexivity])
         | by (eexists; split;
                 [apply list_elem_of_further, list_elem_of_here|reflexivity]) ].
Qed.


(** Whatever fails, stripping in place a file that exists leaves at its
    path either what it held or a complete encoding, never a truncated or
    missing file. *)
Theorem inplace_original_survives (env : Env) (path : string) (pol : Policy)
    (w : World) (c : content) :
  inplace pol = true →
  fs w !! PathLib.of_string path = Some c →
  let w' := (strip_metadata env path pol w).2 in
  fs w' !! PathLib.of_string path = Some c
  ∨ ∃ img kw, fs w' !! PathLib.of_string path = Some (Encoded img kw).
Proof.
  intros Hin Hc w'. subst w'.
  destruct (strip_metadata_outcome env path pol w)
    as [_ [(img & kw & lines & Hfs & _)|(line & _ & _ & [Hfs|(tmp & c' & Hf & Hfs)])]];
    rewrite Hfs.
  - right. exists img, kw. unfold output_name. rewrite Hin.
    apply lookup_insert_eq.
  - by left.
  - left. rewrite lookup_insert_ne; [done|]. intros ->. congruence.
Qed.

End StripMore.

(** ** The options of a save *)

Section SaveOptions.

Context `{Pillow}.

Lemma with_icc_dpi_icc (icc_profile : option string) (dpi : option (Z * Z))
    (kw : save_kwargs) :
  kw !! "icc_profile" = None →
  with_icc_dpi icc_profile dpi kw !! "icc_profile" =
  match icc_profile with
  | Some b => if PyStr.truthy b then Some (KIcc b) else None
  | None => None
  end.
Proof.
  intros Hkw. unfold with_icc_dpi.
  destruct dpi; rewrite ?lookup_insert_ne by done;
    destruct icc_profile as [b|]; try done;
    destruct (PyStr.truthy b); by rewrite ?lookup_insert_eq.
Qed.

Lemma with_icc_dpi_dpi (icc_profile : option string) (dpi : option (Z * Z))
    (kw : save_kwargs) :
  kw !! "dpi" = None →
  with_icc_dpi icc_profile dpi kw !! "dpi" = KDpi <$> dpi.
Proof.
  intros Hkw. unfold with_icc_dpi.
  destruct dpi; simpl; rewrite ?lookup_insert_eq; [done|].
  destruct icc_profile as [b|]; try done.
  destruct (PyStr.truthy b); by rewrite ?lookup_insert_ne.
Qed.

Lemma jpeg_is_exif_format (fmt : string) :
  fmt ∈ ["JPEG"; "JPG"] → fmt ∈ exif_formats.
Proof. unfold exif_formats. set_solver. Qed.

(** The file of a run that goes through was saved with the JPEG options
    exactly when the input is a JPEG: the quality of the policy, optimized
    coding, and the progressive flag when one is given, true for every
    number but zero. *)
Theorem jpeg_encoding_options (env : Env) (pol : Policy) (w : World)
    (path : string) (img : Image) (src : Exif) (img' : Image) (tmp : Path) :
  clean_run env pol w path img src img' tmp →
  let kw := strip_kwargs pol img src in
  let jpeg := bool_decide (image_format img ∈ ["JPEG"; "JPG"]) in
  fs (strip_metadata env path pol w).2
    !! output_name pol (PathLib.of_string path) = Some (Encoded img' kw) ∧
  kw !! "quality" = (if jpeg then Some (KInt (quality pol)) else None) ∧
  kw !! "optimize" = (if jpeg then Some (KBool true) else None) ∧
  kw !! "progressive" =
    (if jpeg then (λ n, KBool (negb (n =? 0))) <$> progressive pol else None).
Proof.
  intros Hrun kw jpeg. subst kw jpeg.
  destruct (strip_metadata_clean _ _ _ _ _ _ _ _ Hrun) as (_ & -> & _).
  split; [apply lookup_insert_eq|].
  unfold strip_kwargs.
  destruct (decide (image_format img ∈ ["JPEG"; "JPG"])) as [Hj|Hj];
    [rewrite (bool_decide_eq_true_2 _ Hj)|rewrite (bool_decide_eq_false_2 _ Hj)].
  - rewrite bool_decide_eq_true_2 by by apply jpeg_is_exif_format.
    unfold exif_save_kwargs. rewrite !with_icc_dpi_lookup by done.
    rewrite (bool_decide_eq_true_2 _ Hj).
    destruct (progressive pol); simpl;
      rewrite ?lookup_insert_eq, ?lookup_insert_ne by done;
      rewrite ?lookup_insert_eq, ?lookup_insert_ne by done;
      by rewrite ?lookup_insert_eq, ?lookup_insert_ne, ?lookup_empty by done.
  - case_bool_decide.
    + unfold exif_save_kwargs. rewrite !with_icc_dpi_lookup by done.
      rewrite (bool_decide_eq_false_2 _ Hj).
      by rewrite !lookup_insert_ne, !lookup_empty by done.
    + destruct (String.eqb _ _); [|done]. unfold png_save_kwargs.
      rewrite !lookup_insert_ne by done.
      by rewrite !with_icc_dpi_lookup, !lookup_empty by done.
Qed.

(** The file of a run that goes through carries the ICC profile of the
    source only when [keep_icc] is set and the source has a profile that is
    not empty, and the DPI of the source only when [keep_dpi] is set and the
    source has one; for a format that is neither one of the four with EXIF
    nor PNG it carries neither. *)
Theorem icc_dpi_policy (env : Env) (pol : Policy) (w : World)
    (path : string) (img : Image) (src : Exif) (img' : Image) (tmp : Path) :
  clean_run env pol w path img src img' tmp →
  let kw := strip_kwargs pol img src in
  fs (strip_metadata env path pol w).2
    !! output_name pol (PathLib.of_string path) = Some (Encoded img' kw) ∧
  kw !! "icc_profile" =
    (if carries_options img && keep_icc pol then
       match im_icc_profile img with
       | Some b => if PyStr.truthy b then Some (KIcc b) else None
       | None => None
       end
     else None) ∧
  kw !! "dpi" =
    (if carries_options img && keep_dpi pol then KDpi <$> im_dpi img
     else None).
Proof.
  intros Hrun kw. subst kw.
  destruct (strip_metadata_clean _ _ _ _ _ _ _ _ Hrun) as (_ & -> & _).
  split; [apply lookup_insert_eq|].
  unfold strip_kwargs, carries_options.
  destruct (bool_decide (image_format img ∈ exif_formats)); simpl.
  - unfold exif_save_kwargs.
    rewrite with_icc_dpi_icc, with_icc_dpi_dpi.
    + by destruct (keep_icc pol), (keep_dpi pol).
    + destruct (bool_decide _), (progressive pol);
        by rewrite ?lookup_insert_ne, ?lookup_empty by done.
    + destruct (bool_decide _), (progressive pol);
        by rewrite ?lookup_insert_ne, ?lookup_empty by done.
  - destruct (String.eqb _ _); simpl; [|by rewrite !lookup_empty].
    unfold png_save_kwargs. rewrite !lookup_insert_ne by done.
    rewrite with_icc_dpi_icc, with_icc_dpi_dpi by done.
    by destruct (keep_icc pol), (keep_dpi pol).
Qed.

(** The file of a run that goes through was saved, for one of the four
    formats with EXIF, with the bytes of the replacement mapping, empty
    bytes standing for the empty mapping, and without PNG text; for PNG,
    with an empty container of text chunks and without EXIF; for any other
    format, without any option. *)
Theorem save_options_by_format (env : Env) (pol : Policy) (w : World)
    (path : string) (img : Image) (src : Exif) (img' : Image) (tmp : Path) :
  clean_run env pol w path img src img' tmp →
  let kw := strip_kwargs pol img src in
  let new_exif := build_new_exif src (keep_date pol) (keep_orientation pol)
                    (copyright_text pol) in
  fs (strip_metadata env path pol w).2
    !! output_name pol (PathLib.of_string path) = Some (Encoded img' kw) ∧
  (image_format img ∈ exif_formats →
     kw !! "exif" = Some (KExif (if bool_decide (new_exif = ∅)
                                 then EmptyBytes else ExifToBytes new_exif)) ∧
     kw !! "pnginfo" = None) ∧
  (image_format img ∉ exif_formats → image_format img = "PNG" →
     kw !! "pnginfo" = Some (KPngInfo []) ∧ kw !! "exif" = None) ∧
  (image_format img ∉ exif_formats → image_format img ≠ "PNG" → kw = ∅).
Proof.
  intros Hrun kw new_exif. subst kw new_exif.
  destruct (strip_metadata_clean _ _ _ _ _ _ _ _ Hrun) as (_ & -> & _).
  split; [apply lookup_insert_eq|]. unfold strip_kwargs.
  split; [|split].
  - intros Hf. rewrite bool_decide_eq_true_2 by done.
    rewrite !exif_save_kwargs_lookup by set_solver.
    rewrite lookup_singleton_eq, lookup_singleton_ne by done.
    split; [|done]. do 2 f_equal.
    destruct (decide (build_new_exif src (keep_date pol) (keep_orientation pol)
                        (copyright_text pol) = ∅)) as [E|E].
    + rewrite (bool_decide_eq_true_2 _ E), E.
      rewrite bool_decide_eq_false_2; [done|].
      rewrite map_size_empty. intros Hx. by apply Hx.
    + rewrite (bool_decide_eq_false_2 _ E).
      by rewrite bool_decide_eq_true_2 by by rewrite map_size_empty_iff.
  - intros Hf Hpng. rewrite bool_decide_eq_false_2 by done.
    rewrite Hpng. simpl. unfold png_save_kwargs.
    rewrite lookup_insert_eq, lookup_insert_ne by done.
    by rewrite with_icc_dpi_lookup, lookup_empty by done.
  - intros Hf Hpng. rewrite bool_decide_eq_false_2 by done.
    apply String.eqb_neq in Hpng. by rewrite Hpng.
Qed.

(** With no keep flag and no copyright, or an empty one, the file of a
    run that goes through carries no tag, whatever the format of the input
    and whatever tags the source holds. *)
Theorem default_strip_clears_tags (env : Env) (pol : Policy) (w : World)
    (path : string) (img : Image) (src : Exif) (img' : Image) (tmp : Path) :
  clean_run env pol w path img src img' tmp →
  keep_date pol = false →
  keep_orientation pol = false →
  copyright_text pol = None ∨ copyright_text pol = Some "" →
  ∃ c, fs (strip_metadata env path pol w).2
         !! output_name pol (PathLib.of_string path) = Some c ∧
       file_tags c = ∅.
Proof.
  intros Hrun Hkd Hko Hcp.
  destruct (strip_metadata_clean _ _ _ _ _ _ _ _ Hrun) as (_ & -> & _).
  eexists. split; [apply lookup_insert_eq|]. simpl.
  rewrite output_tags_strip_kwargs. case_bool_decide; [|done].
  rewrite Hkd, Hko, build_new_exif_unfold. unfold kept_tags.
  by destruct Hcp as [-> | ->]; [|destruct TAG_COPYRIGHT].
Qed.

(** What a run that goes through prints: a warning first, for a format
    that is neither one of the four with EXIF nor PNG, naming the format, or
    the suffix of the input when the format is unknown; then the line
    announcing the output; then, for a copyright text that is not empty, the
    line announcing the copyright, whatever the format, also where no
    copyright tag is written. *)
Theorem clean_run_report (env : Env) (pol : Policy) (w : World)
    (path : string) (img : Image) (src : Exif) (img' : Image) (tmp : Path) :
  clean_run env pol w path img src img' tmp →
  let p := PathLib.of_string path in
  let outname := PathLib.str (output_name pol p) in
  out (strip_metadata env path pol w).2 =
  out w
  ++ (if carries_options img then []
      else ["[WARN] Unknown/less-tested format "
              +:+ (if PyStr.truthy (image_format img) then image_format img
                   else PathLib.suffix p)
              +:+ "; saved without explicit metadata."])
  ++ [if inplace pol then "[OK] Stripped metadata IN PLACE → " +:+ outname
      else "[OK] Cleaned " +:+ path +:+ " → " +:+ outname]
  ++ match copyright_text pol with
     | Some text =>
         if PyStr.truthy text then ["[OK] Added copyright: " +:+ text] else []
     | None => []
     end.
Proof. apply strip_metadata_clean_out. Qed.

End SaveOptions.

(** ** More on scanning and on the batch driver *)

Lemma print_all_run (lines : list string) (w : World) :
  print_all lines w = (Ok tt, mkWorld (fs w) (out w ++ lines) (trace w)).
Proof.
  revert w. induction lines as [|l lines IH]; intros w; simpl.
  - rewrite app_nil_r. by destruct w.
  - rewrite bind_run. simpl. rewrite IH. simpl. by rewrite <- app_assoc.
Qed.

Lemma rstrip_idempotent (s : string) : PyStr.rstrip (PyStr.rstrip s) = PyStr.rstrip s.
Proof.
  induction s as [|c s IH]; [done|]. simpl.
  destruct (PyStr.rstrip s) as [|d r] eqn:E.
  - destruct (PyStr.is_space c) eqn:Hc; [done|]. simpl. by rewrite Hc.
  - simpl in *. by rewrite IH.
Qed.

Lemma lstrip_starts_clean (s : string) : starts_clean (PyStr.lstrip s).
Proof.
  induction s as [|c s IH]; [done|]. simpl.
  by destruct (PyStr.is_space c) eqn:Hc.
Qed.

Lemma rstrip_starts_clean (s : string) :
  starts_clean s → starts_clean (PyStr.rstrip s).
Proof.
  destruct s as [|c s]; [done|]. simpl. intros Hc.
  destruct (PyStr.rstrip s); [by rewrite Hc|done].
Qed.

Lemma lstrip_clean (s : string) : starts_clean s → PyStr.lstrip s = s.
Proof. destruct s as [|c s]; [done|]. simpl. by intros ->. Qed.

Lemma strip_idempotent (s : string) : PyStr.strip (PyStr.strip s) = PyStr.strip s.
Proof.
  unfold PyStr.strip.
  rewrite (lstrip_clean (PyStr.rstrip (PyStr.lstrip s))).
  - apply rstrip_idempotent.
  - apply rstrip_starts_clean, lstrip_starts_clean.
Qed.

(** Runs the [print_all] that is applied to a state. *)
Ltac run_print_all :=
  match goal with
  | |- context [print_all ?l (mkWorld ?f ?o ?t)] =>
      rewrite (print_all_run l (mkWorld f o t)); simpl
  end.

Section BatchMore.

Context `{Pillow}.

(** The candidates are, when standard input is no terminal, every line of
    it stripped of the white space around it, the lines of which nothing is
    left being dropped, in the order read, and then the positional
    arguments, untouched; when standard input is a terminal they are the
    arguments alone.  A candidate read from standard input is never empty
    and carries no white space at either end. *)
Theorem candidates_are_clean (os : OS) (files : list string) :
  let piped := if isatty os then []
               else filter (λ c, c ≠ "") (PyStr.strip <$> stdin_lines os) in
  files_from_stdin_or_args os files = piped ++ files ∧
  Forall (λ c, c ≠ "" ∧ PyStr.strip c = c) piped ∧
  (∀ c, c ∈ piped ↔
        isatty os = false ∧ c ≠ "" ∧ ∃ l, l ∈ stdin_lines os ∧ c = PyStr.strip l).
Proof.
  intros piped. subst piped. split; [|split].
  - unfold files_from_stdin_or_args.
    destruct (isatty os); simpl; [done|]. f_equal.
    apply list_filter_iff. intros l. by destruct l.
  - destruct (isatty os); [by apply Forall_nil|].
    apply Forall_forall. intros c Hc.
    apply list_elem_of_filter in Hc as [Hne Hc].
    apply list_elem_of_fmap in Hc as (l & -> & _).
    split; [done|apply strip_idempotent].
  - intros c. destruct (isatty os).
    + split; [by intros ?%elem_of_nil|by intros [? _]].
    + rewrite list_elem_of_filter, list_elem_of_fmap. naive_solver.
Qed.

(** What [scan_metadata] answers does not depend on what it prints: it
    answers true exactly when the file opens with a tag mapping that can be
    read and is not empty, and it never changes a file. *)
Theorem scan_answer (env : Env) (path : string) (verbose show_gps : bool)
    (w : World) :
  (scan_metadata env path verbose show_gps w).1 = Ok (has_metadata env) ∧
  fs (scan_metadata env path verbose show_gps w).2 = fs w.
Proof.
  split; [|apply scan_metadata_readonly].
  unfold scan_metadata, has_metadata. py_unfold. simpl.
  destruct (e_open env) as [img|e]; simpl; [|by destruct verbose].
  destruct (im_exif img) as [exif|e]; simpl; [|by destruct verbose].
  destruct (exif_truthy exif) eqn:Et; simpl; [|by destruct verbose].
  rewrite exif_truthy_size by done.
  destruct verbose; simpl; [|done]. run_print_all.
  destruct (show_gps && _); simpl; [|done].
  destruct (exif_truthy (im_gps_ifd img)); simpl; [|done]. by run_print_all.
Qed.

(** A file that opens with an empty tag mapping: the answer is false; the
    scan that reports prints the one line saying that no metadata was
    found, and the quiet scan prints nothing. *)
Theorem scan_without_metadata (env : Env) (path : string)
    (verbose show_gps : bool) (w : World) (img : Image) :
  e_open env = Ok img →
  im_exif img = Ok ∅ →
  scan_metadata env path verbose show_gps w =
  (Ok false,
   mkWorld (fs w)
     (out w ++ (if verbose then ["[INFO] No EXIF metadata found in " +:+ path]
                else []))
     (trace w ++ [EScan path])).
Proof.
  intros Hopen Hexif. unfold scan_metadata. py_unfold. simpl.
  rewrite Hopen. simpl. rewrite Hexif. simpl.
  destruct verbose; simpl; [done|]. by rewrite app_nil_r.
Qed.

(** The scan that reports, on a file with metadata: a header, one line for
    each tag, and the GPS block, one heading and one line for each of its
    entries, only when [show_gps] is set, the mapping holds the GPS tag and
    the GPS directory is not empty. *)
Theorem scan_report_lines (env : Env) (path : string) (show_gps : bool)
    (w : World) (img : Image) (exif : Exif) :
  e_open env = Ok img →
  im_exif img = Ok exif →
  exif ≠ ∅ →
  let gps := show_gps && bool_decide (is_Some (exif !! TAG_GPS_IFD))
             && exif_truthy (im_gps_ifd img) in
  ∃ tag_lines gps_block,
    out (scan_metadata env path true show_gps w).2
    = out w ++ ["=== Metadata for " +:+ path +:+ " ==="] ++ tag_lines
            ++ gps_block ∧
    length tag_lines = size exif ∧
    gps_block = (if gps then "---- GPS ----" :: gps_lines (im_gps_ifd img)
                 else []) ∧
    length (gps_lines (im_gps_ifd img)) = size (im_gps_ifd img).
Proof.
  intros Hopen Hexif Hne gps. subst gps.
  unfold scan_metadata. py_unfold. simpl.
  rewrite Hopen. simpl. rewrite Hexif. simpl.
  assert (exif_truthy exif = true) as Ht.
  { unfold exif_truthy. by rewrite bool_decide_eq_false_2. }
  rewrite Ht, exif_truthy_size by done. simpl.
  run_print_all.
  exists ((λ tv : string * exif_value, tv.1 +:+ ": " +:+ value_str tv.2)
            <$> pretty_exif_items exif).
  exists (if show_gps && bool_decide (is_Some (exif !! TAG_GPS_IFD))
               && exif_truthy (im_gps_ifd img)
          then "---- GPS ----" :: gps_lines (im_gps_ifd img) else []).
  split; [|split; [|split; [reflexivity|]]].
  - destruct (show_gps && _) eqn:Hg; simpl.
    + destruct (exif_truthy (im_gps_ifd img)); simpl.
      * run_print_all. by rewrite <- !app_assoc.
      * by rewrite app_nil_r, <- app_assoc.
    + by rewrite app_nil_r, <- app_assoc.
  - unfold pretty_exif_items. by rewrite !length_fmap, length_map_to_list.
  - unfold gps_lines. by rewrite length_fmap, length_map_to_list.
Qed.

Lemma process_scan_readonly (args : Args) (os : OS) (path : string) :
  a_strip args = false → readonly (process args os path).
Proof.
  intros Hs. unfold process. rewrite Hs. cbn [when]. cbv zeta.
  apply readonly_bind; [apply readonly_lift|intros is_dir].
  repeat first [apply scan_metadata_readonly | readonly_step].
Qed.

Lemma run_scan_readonly (args : Args) (os : OS) (candidates : list string) :
  a_strip args = false → readonly (run args os candidates).
Proof.
  intros Hs. induction candidates as [|path rest IH]; simpl.
  - apply readonly_ret.
  - apply readonly_bind; [by apply process_scan_readonly|done].
Qed.

(** Without [--strip] the program never creates, changes or removes a
    file, whatever the candidates are and whatever fails: scanning only
    reads. *)
Theorem without_strip_nothing_is_written (args : Args) (os : OS) (w : World) :
  a_strip args = false →
  fs (main args os w).2 = fs w.
Proof.
  intros Hs. assert (readonly (main args os)) as Hro; [|apply Hro].
  unfold main. rewrite Hs. cbn [andb when].
  destruct (negb (a_scan args) && negb false); [apply readonly_print|].
  apply readonly_bind; [apply readonly_ret|intros _].
  apply readonly_bind; [by apply run_scan_readonly|intros _].
  repeat readonly_step.
Qed.

(** With a mode and no candidate, neither on the command line nor on
    standard input, [main] prints the one line saying that no files were
    provided and touches no file: the help text of the final check is never
    printed, since a run without a mode has ended before. *)
Theorem main_without_input (args : Args) (os : OS) (w : World) :
  files_from_stdin_or_args os (a_files args) = [] →
  a_scan args || a_strip args = true →
  a_strip args && negb (a_inplace args) = false ∨ outdir_mkdir os = None →
  let w' := (main args os w).2 in
  fs w' = fs w ∧
  out w' = out w ++ ["[INFO] No files provided on CLI or stdin."].
Proof.
  intros Hnone Hmode Hdir w'. subst w'. unfold main. rewrite Hnone.
  assert (negb (a_scan args) && negb (a_strip args) = false) as ->.
  { by destruct (a_scan args), (a_strip args). }
  rewrite Hmode. simpl.
  destruct Hdir as [-> | ->]; [done|].
  by destruct (a_strip args && negb (a_inplace args)).
Qed.


End BatchMore.

(** ** The further properties on the small Pillow *)

Section ExamplesMore.

Import Demo.

(** The photograph stays while its cleaned copy cannot be encoded. *)
Lemma save_atomic_frame_witness :
  fs (save_atomic (env_save_fails (photo "JPEG")) (photo "JPEG")
        (PathLib.of_string "out/a_clean.jpg") ∅ world1).2
    !! PathLib.of_string "pics/a.jpg" = Some (Blob "raw").
Proof.
  apply (save_atomic_frame (env_save_fails (photo "JPEG")) (photo "JPEG")
           (PathLib.of_string "out/a_clean.jpg") ∅ world1
           (PathLib.of_string "pics/a.jpg") (Blob "raw")).
  - discriminate.
  - reflexivity.
Defined.

(** Writing over the photograph with a full disk. *)
Lemma existing_destination_is_never_truncated_witness :
  let r := save_atomic (env_save_fails (photo "JPEG")) (photo "JPEG")
             (PathLib.of_string "pics/a.jpg") ∅ world1 in
  (r.1 = Ok tt
   ∧ fs r.2 !! PathLib.of_string "pics/a.jpg" = Some (Encoded (photo "JPEG") ∅))
  ∨ (∃ e, r.1 = Err e
          ∧ fs r.2 !! PathLib.of_string "pics/a.jpg" = Some (Blob "raw")).
Proof.
  apply (existing_destination_is_never_truncated
           (env_save_fails (photo "JPEG")) (photo "JPEG")
           (PathLib.of_string "pics/a.jpg") ∅ world1 (Blob "raw")).
  reflexivity.
Defined.

(** Stripping the photograph into the output directory. *)
Lemma strip_keeps_the_input_witness :
  fs (strip_metadata (env_ok (photo "JPEG")) "pics/a.jpg" pol0 world1).2
    !! PathLib.of_string "pics/a.jpg" = Some (Blob "raw").
Proof.
  apply (strip_keeps_the_input (env_ok (photo "JPEG")) "pics/a.jpg" pol0
           world1 (Blob "raw")); reflexivity.
Defined.

(** Stripping the photograph in place with a full disk. *)
Lemma inplace_original_survives_witness :
  let w' := (strip_metadata (env_save_fails (photo "JPEG")) "pics/a.jpg"
               pol_inplace world1).2 in
  fs w' !! PathLib.of_string "pics/a.jpg" = Some (Blob "raw")
  ∨ ∃ img kw, fs w' !! PathLib.of_string "pics/a.jpg" = Some (Encoded img kw).
Proof.
  apply (inplace_original_survives (env_save_fails (photo "JPEG"))
           "pics/a.jpg" pol_inplace world1 (Blob "raw")); reflexivity.
Defined.

Lemma colour_run_is_clean (fmt : string) :
  clean_run (env_ok (photo fmt)) pol_colour world1 "pics/a.jpg" (photo fmt)
    photo_exif (photo fmt) (PathLib.of_string "out/tmpabcd1234.jpg").
Proof. repeat split; reflexivity. Defined.

(** The JPEG options of the photograph. *)
Lemma jpeg_encoding_options_witness :
  let kw := strip_kwargs pol_colour (photo "JPEG") photo_exif in
  kw !! "quality" = Some (KInt 90) ∧
  kw !! "optimize" = Some (KBool true) ∧
  kw !! "progressive" = Some (KBool true).
Proof.
  destruct (jpeg_encoding_options _ _ _ _ _ _ _ _ (colour_run_is_clean "JPEG"))
    as (_ & Hq & Ho & Hp).
  split; [exact Hq|]. split; [exact Ho|exact Hp].
Defined.

(** The colour profile and the resolution of the photograph, kept. *)
Lemma icc_dpi_policy_witness :
  let kw := strip_kwargs pol_colour (photo "PNG") photo_exif in
  kw !! "icc_profile" = Some (KIcc "icc") ∧
  kw !! "dpi" = Some (KDpi (72, 72)).
Proof.
  destruct (icc_dpi_policy _ _ _ _ _ _ _ _ (colour_run_is_clean "PNG"))
    as (_ & Hi & Hd).
  split; [exact Hi|exact Hd].
Defined.

(** The options of the photograph as a PNG. *)
Lemma save_options_by_format_witness :
  let kw := strip_kwargs pol_colour (photo "PNG") photo_exif in
  kw !! "pnginfo" = Some (KPngInfo []) ∧ kw !! "exif" = None.
Proof.
  destruct (save_options_by_format _ _ _ _ _ _ _ _ (colour_run_is_clean "PNG"))
    as (_ & _ & Hpng & _).
  apply Hpng; [|reflexivity].
  apply (bool_decide_eq_false_1 (image_format (photo "PNG") ∈ exif_formats)).
  vm_compute. reflexivity.
Defined.

(** The photograph, stripped with the default policy. *)
Lemma default_strip_clears_tags_witness :
  ∃ c, fs (strip_metadata (env_ok (photo "JPEG")) "pics/a.jpg" pol0 world1).2
         !! PathLib.of_string "out/a_clean.jpg" = Some c ∧
       file_tags c = ∅.
Proof.
  eapply (default_strip_clears_tags (env_ok (photo "JPEG")) pol0 world1
            "pics/a.jpg" (photo "JPEG") photo_exif _
            (PathLib.of_string "out/tmpabcd1234.jpg")).
  - repeat split; reflexivity.
  - reflexivity.
  - reflexivity.
  - left. reflexivity.
Defined.

(** The image without metadata, scanned aloud. *)
Lemma scan_without_metadata_witness :
  scan_metadata (env_ok plain) "pics/b.png" true false world0 =
  (Ok false,
   mkWorld ∅ ["[INFO] No EXIF metadata found in pics/b.png"]
     [EScan "pics/b.png"]).
Proof.
  apply (scan_without_metadata (env_ok plain) "pics/b.png" true false world0
           plain); reflexivity.
Defined.

(** The photograph, scanned with its GPS block: a header, five tags, the
    heading of the block and its one entry. *)
Lemma scan_report_lines_witness :
  length (out (scan_metadata (env_ok (photo "JPEG")) "pics/a.jpg" true true
                 world0).2) = 8%nat.
Proof.
  destruct (scan_report_lines (env_ok (photo "JPEG")) "pics/a.jpg" true
              world0 (photo "JPEG") photo_exif eq_refl eq_refl)
    as (tags & gps & Hout & Htags & Hgps & _).
  { intros E. apply (f_equal (λ m : Exif, m !! 271)) in E. discriminate E. }
  rewrite Hout, Hgps. rewrite !length_app, Htags. reflexivity.
Defined.

(** Where the cleaned copy of the photograph goes. *)
Lemma output_name_spec_witness :
  PathLib.str (output_name pol0 (PathLib.of_string "pics/a.jpg"))
  = "out/a_clean.jpg" ∧
  PathLib.suffix (output_name pol0 (PathLib.of_string "pics/a.jpg")) = ".jpg".
Proof.
  destruct (output_name_spec pol0 "pics/a.jpg") as [_ Hout].
  destruct (Hout eq_refl) as (_ & _ & _ & Hsuffix).
  split; [reflexivity|]. rewrite Hsuffix; [reflexivity|discriminate].
Defined.

(** Scanning the photograph for positives leaves it as it is. *)
Lemma without_strip_nothing_is_written_witness :
  fs (main (args_positives ["pics/a.jpg"]) os_args world1).2 = fs world1.
Proof.
  apply (without_strip_nothing_is_written (args_positives ["pics/a.jpg"])
           os_args world1).
  reflexivity.
Defined.

(** A scan without any file. *)
Lemma main_without_input_witness :
  out (main (args_positives []) os_args world0).2
  = ["[INFO] No files provided on CLI or stdin."].
Proof.
  destruct (main_without_input (args_positives []) os_args world0)
    as [_ Hout].
  - reflexivity.
  - reflexivity.
  - left. reflexivity.
  - exact Hout.
Defined.


(** The photograph as a PNG, stripped with a copyright: the copyright is
    announced. *)
Lemma clean_run_report_witness :
  out (strip_metadata (env_ok (photo "PNG")) "pics/a.jpg" pol_keep world1).2
  = ["[OK] Cleaned pics/a.jpg → out/a_clean.jpg"; "[OK] Added copyright: me"].
Proof.
  rewrite (clean_run_report (env_ok (photo "PNG")) pol_keep world1
             "pics/a.jpg" (photo "PNG") photo_exif (photo "PNG")
             (PathLib.of_string "out/tmpabcd1234.jpg")).
  - reflexivity.
  - repeat split; reflexivity.
Defined.

End ExamplesMore.
